(** * wayback.py: a shallow embedding and its verified properties

    The program mirrors a wiki from the Wayback Machine: it resolves a
    logical path to a replay URL ([get_url]), fetches it ([get_response]),
    writes it under the working directory ([write], [export_path]) and
    iterates over the links found in the files already written
    ([MD.export], [HTML.export]).

    Modelling conventions.
    - Python [str] values are [string]s holding the UTF-8 encoding of the
      text.  Prefixes, [split], [replace] and [lstrip] with ASCII
      arguments act on the bytes as they act on the characters; the
      regular expression of [MD.get_paths] works on the characters, and
      its class [\w] is the alphanumeric characters of Unicode and the
      underscore.
    - A [pathlib.Path] is the list of its parts, relative to the working
      directory; an absolute path starts with the part ["/"] (or ["//"]),
      as in [PurePosixPath.parts].  A [".."] part is kept as an ordinary
      name, as [pathlib] does, and the model filesystem has no such entry.
    - The filesystem is a finite map from paths to nodes; symbolic links
      are followed on the last part only.
    - Effects are explicit: a computation takes a state (filesystem and
      trace of log lines, sleeps and requests) and returns a result or a
      raised exception together with the new state.
    - The network, [lxml], [urllib.parse.urlparse], [datetime.strptime]
      and the Unicode character database are collaborators outside the
      source; they are the fields of an environment record. *)

From Stdlib Require Import ZArith Lia Ascii String.
From stdpp Require Import base option list strings gmap sorting.

Local Open Scope string_scope.
Local Set Warnings "-register-all".

(** ** Python strings *)

Module Str.

Definition chars (s : string) : list ascii := list_ascii_of_string s.
Definition of_chars (l : list ascii) : string := string_of_list_ascii l.

(** [s.split(sep)] for a one-character separator. *)
Fixpoint split (sep : ascii) (s : string) : list string :=
  match s with
  | EmptyString => [EmptyString]
  | String c s' =>
      if Ascii.eqb c sep then EmptyString :: split sep s'
      else match split sep s' with
           | [] => [String c EmptyString]
           | x :: xs => String c x :: xs
           end
  end.

(** [str.join(sep, l)]. *)
Definition join (sep : string) (l : list string) : string := String.concat sep l.

(** [s.startswith(p)]. *)
Definition startswith (p s : string) : bool := String.prefix p s.

(** [s.replace(a, b)] for one-character [a] and [b]. *)
Fixpoint replace (a b : ascii) (s : string) : string :=
  match s with
  | EmptyString => EmptyString
  | String c s' => String (if Ascii.eqb c a then b else c) (replace a b s')
  end.

(** [s.lstrip(c)] for a one-character set. *)
Fixpoint lstrip (c : ascii) (s : string) : string :=
  match s with
  | String d s' => if Ascii.eqb d c then lstrip c s' else s
  | EmptyString => EmptyString
  end.

(** [p in s] on strings. *)
Fixpoint contains (p s : string) : bool :=
  String.prefix p s ||
  match s with
  | EmptyString => false
  | String _ s' => contains p s'
  end.

(** [c in s] for one character. *)
Definition has_char (c : ascii) (s : string) : bool :=
  existsb (Ascii.eqb c) (chars s).

(** Truthiness of a Python string. *)
Definition truthy (s : string) : bool :=
  match s with EmptyString => false | _ => true end.

End Str.

(** ** Exceptions and results *)

Inductive exn :=
  | URLError | TypeError | AttributeError | AssertionError | IndexError
  | KeyError | ValueError | FileExistsError | FileNotFoundError
  | IsADirectoryError | NotADirectoryError | OSError
  | ParserError | JSONDecodeError | UnicodeDecodeError.

Inductive result (A : Type) :=
  | Ok (a : A)
  | Raise (e : exn).
Arguments Ok {A} a.
Arguments Raise {A} e.

Definition rbind {A B} (r : result A) (k : A -> result B) : result B :=
  match r with Ok a => k a | Raise e => Raise e end.

(** ** [insert_id_] *)

(** [_url = url.split('/'); _url[4] = f'{_url[4]}id_'; return str.join('/', _url)].
    Reading [_url[4]] raises [IndexError] when there are fewer than five
    segments. *)
Definition insert_id_ (url : string) : result string :=
  let _url := Str.split "/" url in
  match _url !! 4%nat with
  | Some seg => Ok (Str.join "/" (<[4%nat := seg ++ "id_"]> _url))
  | None => Raise IndexError
  end.

(** ** Values exchanged with the collaborators *)

(** A parsed JSON document, as [json.loads] returns it. *)
Inductive json :=
  | JNull
  | JBool (b : bool)
  | JNum (z : Z)
  | JStr (s : string)
  | JArr (l : list json)
  | JObj (kv : list (string * json)).

(** What the fetch returns: [str] or [bytes]. *)
Inductive response :=
  | Text (s : string)
  | Bytes (b : string).

Definition payload (r : response) : string :=
  match r with Text s => s | Bytes b => b end.

(** The object [urllib.request.urlopen] returns, reduced to what
    [get_response] looks at. *)
Record http_response := HttpResponse {
  content_type : option string;
  content_encoding : option string;
  body : string
}.

(** An [lxml] element: tag, attributes, text, children, tail. *)
Inductive element :=
  | Element (tag : string) (attrib : list (string * string))
            (text : option string) (children : list element)
            (tail : option string).

Definition tag_of (e : element) : string :=
  match e with Element t _ _ _ _ => t end.
Definition attrib_of (e : element) : list (string * string) :=
  match e with Element _ a _ _ _ => a end.
Definition text_of (e : element) : option string :=
  match e with Element _ _ t _ _ => t end.
Definition children_of (e : element) : list element :=
  match e with Element _ _ _ c _ => c end.

(** The collaborators: the availability endpoint (request, read, decode
    and [json.loads] together), the fetch transport, [gzip] and [utf-8]
    decoding, the [lxml] parser and serializer, the path component of
    [urllib.parse.urlparse] (which raises [ValueError] on a value it
    rejects), [str.isalnum] on a character that is not ASCII (given by
    its encoding) and [datetime.strptime] with the format
    [%Y%m%d%H%M%S] (its result printed). *)
Record Env := {
  available_api : string -> result json;
  urlopen : string -> result http_response;
  gunzip : string -> result string;
  decode : string -> result string;
  fromstring : string -> result element;
  tostring : element -> string;
  urlparse_path : string -> result string;
  unicode_alnum : string -> bool;
  strptime : string -> result string
}.

(** ** Paths, the filesystem and the state *)

Abbreviation path := (list string).

Inductive node :=
  | File (data : string)
  | Dir
  | Symlink (target : list string).

Inductive level := DEBUG | INFO | WARNING | ERROR.

Inductive logmsg :=
  | MsgSnapshot (p timestamp : string)
  | MsgNoUrl (p : string)
  | MsgNoResponse (url : string)
  | MsgURLError (url : string)
  | MsgCollision (parent target : list string)
  | MsgNoItems
  | MsgWillExport (paths : list string)
  | MsgFile (file : list string)
  | MsgRemoving (file : list string).

Inductive event :=
  | Log (lvl : level) (msg : logmsg)
  | Sleep (seconds : nat)
  | Request (url : string)
  | Scan (pattern : string).

Record state := State {
  fs : gmap (list string) node;
  trace : list event
}.

(** A computation: state in, result or exception and state out. *)
Definition M (A : Type) : Type := state -> result A * state.

Definition ret {A} (a : A) : M A := fun st => (Ok a, st).
Definition raise {A} (e : exn) : M A := fun st => (Raise e, st).
Definition bind {A B} (m : M A) (k : A -> M B) : M B :=
  fun st => match m st with
            | (Ok a, st') => k a st'
            | (Raise e, st') => (Raise e, st')
            end.
Definition lift {A} (r : result A) : M A := fun st => (r, st).
Definition emit (ev : event) : M unit :=
  fun st => (Ok tt, State (fs st) (trace st ++ [ev])).
Definition get_fs : M (gmap (list string) node) := fun st => (Ok (fs st), st).
Definition put_fs (f : gmap (list string) node) : M unit :=
  fun st => (Ok tt, State f (trace st)).

Notation "x <- m ;; k" := (bind m (fun x => k))
  (at level 100, m at next level, right associativity).
Notation "m ;;; k" := (bind m (fun _ => k))
  (at level 100, right associativity).

(** [logging.<level>(msg)]; it returns [None]. *)
Definition logging (lvl : level) (msg : logmsg) : M unit := emit (Log lvl msg).

(** [for x in l: body(x)]. *)
Fixpoint for_each {A} (l : list A) (body : A -> M unit) : M unit :=
  match l with
  | [] => ret tt
  | x :: l' => body x ;;; for_each l' body
  end.

(** ** Python's [dict.get], truthiness and [int] on JSON values *)

Fixpoint assoc {V} (k : string) (kv : list (string * V)) : option V :=
  match kv with
  | [] => None
  | (k', v) :: kv' => if String.eqb k k' then Some v else assoc k kv'
  end.

(** [d.get(k, dflt)]; only a dict has [get]. *)
Definition py_get (d : json) (k : string) (dflt : json) : result json :=
  match d with
  | JObj kv => Ok (default dflt (assoc k kv))
  | _ => Raise AttributeError
  end.

(** Truthiness of a JSON value ([None], [False], [0], empty string, list
    and dict are falsy). *)
Definition py_truthy (j : json) : bool :=
  match j with
  | JNull => false
  | JBool b => b
  | JNum z => negb (z =? 0)%Z
  | JStr s => Str.truthy s
  | JArr l => match l with [] => false | _ => true end
  | JObj kv => match kv with [] => false | _ => true end
  end.

Definition digit (c : ascii) : option Z :=
  let n := Z.of_nat (nat_of_ascii c) in
  if ((48 <=? n) && (n <=? 57))%Z then Some (n - 48)%Z else None.

Fixpoint digits (acc : Z) (cs : list ascii) : option Z :=
  match cs with
  | [] => Some acc
  | c :: cs' => match digit c with
                | Some d => digits (10 * acc + d)%Z cs'
                | None => None
                end
  end.

(** [int(s)] on a string: an optional sign and decimal digits (the
    surrounding blanks and the digit separators Python also accepts are
    left out). *)
Definition int_of_string (s : string) : result Z :=
  let parse (cs : list ascii) :=
    match cs with
    | [] => None
    | _ => digits 0 cs
    end in
  let r := match Str.chars s with
           | "-"%char :: cs => Z.opp <$> parse cs
           | "+"%char :: cs => parse cs
           | cs => parse cs
           end in
  match r with Some z => Ok z | None => Raise ValueError end.

(** [int(v)]. *)
Definition py_int (v : json) : result Z :=
  match v with
  | JNum z => Ok z
  | JBool b => Ok (if b then 1 else 0)%Z
  | JStr s => int_of_string s
  | JNull | JArr _ | JObj _ => Raise TypeError
  end.

(** [d[k]] on the dict [closest]. *)
Definition py_item (d : json) (k : string) : result json :=
  match d with
  | JObj kv => match assoc k kv with Some v => Ok v | None => Raise KeyError end
  | _ => Raise TypeError
  end.

(** ** [pathlib]: pure paths *)

Module Pathlib.

Definition is_root (part : string) : bool :=
  String.eqb part "/" || String.eqb part "//".

Definition is_absolute (p : path) : bool :=
  match p with
  | r :: _ => is_root r
  | [] => false
  end.

(** The root of a POSIX path string: exactly two leading slashes are kept
    as ["//"], one or three and more collapse to ["/"]. *)
Definition root_of (s : string) : list string :=
  if Str.startswith "///" s then ["/"]
  else if Str.startswith "//" s then ["//"]
  else if Str.startswith "/" s then ["/"]
  else [].

Definition keep_part (x : string) : bool :=
  negb (String.eqb x "") && negb (String.eqb x ".").

(** [pathlib.Path(s)]: empty and ["."] segments vanish. *)
Definition Path (s : string) : path :=
  (root_of s ++ List.filter keep_part (Str.split "/" s))%list.

(** [p.parent]; the parent of ["."] and of the root is itself. *)
Definition parent (p : path) : path :=
  match p with
  | [] => []
  | [r] => if is_root r then [r] else []
  | _ => removelast p
  end.

(** [p.name]; empty for ["."] and for the root. *)
Definition name (p : path) : string :=
  match p with
  | [] => ""
  | [r] => if is_root r then "" else r
  | _ => List.last p ""
  end.

(** [name.rfind('.')], as a position from the left. *)
Fixpoint rfind_dot (cs : list ascii) : option nat :=
  match cs with
  | [] => None
  | c :: cs' =>
      match rfind_dot cs' with
      | Some i => Some (S i)
      | None => if Ascii.eqb c "."%char then Some 0%nat else None
      end
  end.

(** Where the suffix starts: [0 < i < len(name) - 1]. *)
Definition suffix_at (nm : string) : option nat :=
  match rfind_dot (Str.chars nm) with
  | Some i => if (0 <? i)%nat && (i <? String.length nm - 1)%nat
              then Some i else None
  | None => None
  end.

(** [p.suffix]. *)
Definition suffix (p : path) : string :=
  let nm := name p in
  match suffix_at nm with
  | Some i => String.substring i (String.length nm - i) nm
  | None => ""
  end.

(** [p.stem]. *)
Definition stem (p : path) : string :=
  let nm := name p in
  match suffix_at nm with
  | Some i => String.substring 0 i nm
  | None => nm
  end.

(** [p / q] for a path [q]: an absolute [q] replaces [p]. *)
Definition joinpath (p q : path) : path :=
  if is_absolute q then q else (p ++ q)%list.

(** [p / s] for a string [s]. *)
Definition div (p : path) (s : string) : path := joinpath p (Path s).

(** The order [sorted] uses on paths: parts compared left to right. *)
Fixpoint leb (p q : path) : bool :=
  match p, q with
  | [], _ => true
  | _ :: _, [] => false
  | x :: p', y :: q' =>
      match String.compare x y with
      | Lt => true
      | Gt => false
      | Eq => leb p' q'
      end
  end.

#[global] Instance leb_dec p q : Decision (leb p q = true) := _.

(** [sorted(paths)]. *)
Definition sorted (l : list path) : list path :=
  merge_sort (fun p q => leb p q = true) l.

End Pathlib.

(** ** The filesystem *)

Module FS.

Abbreviation t := (gmap (list string) node).

(** The node at a path, no link followed; the working directory and the
    root are directories. *)
Definition node_at (f : t) (p : path) : option node :=
  match p with
  | [] => Some Dir
  | [r] => if Pathlib.is_root r then Some Dir else f !! p
  | _ => f !! p
  end.

(** The path reached after following links on the last part ([None]: too
    many levels of links). *)
Fixpoint follow (fuel : nat) (f : t) (p : path) : option path :=
  match node_at f p with
  | Some (Symlink target) =>
      match fuel with
      | O => None
      | S n => follow n f (Pathlib.joinpath (Pathlib.parent p) target)
      end
  | _ => Some p
  end.

Definition max_links : nat := 40.

(** [os.stat]: the node a path leads to. *)
Definition stat (f : t) (p : path) : option node :=
  match follow max_links f p with
  | Some q => node_at f q
  | None => None
  end.

Definition exists_ (f : t) (p : path) : bool :=
  match stat f p with Some _ => true | None => false end.
Definition is_file (f : t) (p : path) : bool :=
  match stat f p with Some (File _) => true | _ => false end.
Definition is_dir (f : t) (p : path) : bool :=
  match stat f p with Some Dir => true | _ => false end.

(** What [open] of a new entry checks about its directory. *)
Definition parent_check (f : t) (p : path) : result unit :=
  match stat f (Pathlib.parent p) with
  | Some Dir => Ok tt
  | Some _ => Raise NotADirectoryError
  | None => Raise FileNotFoundError
  end.

(** [os.rename(src, dst)] for a source that is not a directory (the
    program renames only what [is_file] accepts): an existing file or
    link at [dst] is replaced. *)
Definition rename (f : t) (src dst : path) : result t :=
  match src with
  | [] => Raise OSError
  | _ =>
    match f !! src with
    | None => Raise FileNotFoundError
    | Some Dir => Raise OSError
    | Some n =>
        match parent_check f dst with
        | Raise e => Raise e
        | Ok _ =>
            match node_at f dst with
            | Some Dir => Raise IsADirectoryError
            | _ => Ok (<[dst := n]> (delete src f))
            end
        end
    end
  end.

(** [p.mkdir(exist_ok=True, parents=True)], walking down from [pre]. *)
Fixpoint mkdir_walk (pre : path) (rest : list string) (f : t) : result t :=
  match rest with
  | [] => Ok f
  | c :: rest' =>
      let p := (pre ++ [c])%list in
      match stat f p with
      | Some Dir => mkdir_walk p rest' f
      | Some _ => Raise (match rest' with
                         | [] => FileExistsError
                         | _ => NotADirectoryError
                         end)
      | None =>
          match node_at f p with
          | Some _ => Raise FileExistsError
          | None => mkdir_walk p rest' (<[p := Dir]> f)
          end
      end
  end.

Definition mkdir (f : t) (p : path) : result t := mkdir_walk [] p f.

(** [p.write_text(data)] and [p.write_bytes(data)]: the file is created
    or truncated; its directory must exist. *)
Definition write_data (f : t) (p : path) (data : string) : result t :=
  match follow max_links f p with
  | None => Raise OSError
  | Some q =>
      match node_at f q with
      | Some Dir => Raise IsADirectoryError
      | Some _ => Ok (<[q := File data]> f)
      | None =>
          match parent_check f q with
          | Ok _ => Ok (<[q := File data]> f)
          | Raise e => Raise e
          end
      end
  end.

(** Reading in text mode turns [\r\n] and [\r] into [\n]. *)
Fixpoint universal_newlines (s : string) : string :=
  match s with
  | EmptyString => EmptyString
  | String c s' =>
      if Ascii.eqb c "013"%char then
        match s' with
        | String d s'' =>
            if Ascii.eqb d "010"%char then universal_newlines s'
            else String "010"%char (universal_newlines s')
        | EmptyString => String "010"%char EmptyString
        end
      else String c (universal_newlines s')
  end.

(** [p.read_text()]. *)
Definition read_text (f : t) (p : path) : result string :=
  match stat f p with
  | Some (File data) => Ok (universal_newlines data)
  | Some Dir => Raise IsADirectoryError
  | Some (Symlink _) => Raise OSError
  | None => Raise FileNotFoundError
  end.

(** [link.symlink_to(target)]. *)
Definition symlink_to (f : t) (link target : path) : result t :=
  match node_at f link with
  | Some _ => Raise FileExistsError
  | None =>
      match parent_check f link with
      | Ok _ => Ok (<[link := Symlink target]> f)
      | Raise e => Raise e
      end
  end.

Definition ends_with (sfx s : string) : bool :=
  let n := String.length sfx in
  let m := String.length s in
  (n <=? m)%nat && String.eqb (String.substring (m - n) n s) sfx.

(** [fnmatch] for the two patterns the program uses. *)
Definition name_matches (pattern nm : string) : bool :=
  if String.eqb pattern "*" then true
  else if String.eqb pattern "*.md" then ends_with ".md" nm
  else String.eqb pattern nm.

(** [pathlib.Path('.').rglob(pattern)]: every entry below the working
    directory whose name matches, in the order the directory scan
    happens to give. *)
Definition rglob (f : t) (pattern : string) : list path :=
  List.filter
    (fun p => negb (Pathlib.is_absolute p)
              && match p with [] => false | _ => true end
              && name_matches pattern (Pathlib.name p))
    (map fst (map_to_list f)).

(** [f.readlines()]: lines with their newline. *)
Fixpoint readlines_aux (cur : string) (s : string) : list string :=
  match s with
  | EmptyString => match cur with EmptyString => [] | _ => [cur] end
  | String c s' =>
      if Ascii.eqb c "010"%char then (cur ++ String c EmptyString) :: readlines_aux "" s'
      else readlines_aux (cur ++ String c EmptyString) s'
  end.

Definition readlines (s : string) : list string := readlines_aux "" s.

End FS.

(** ** [lxml] trees and [cssselect] *)

(** The elements of a tree in document order, the root first
    ([descendant-or-self]). *)
Fixpoint iter (e : element) : list element :=
  match e with
  | Element _ _ _ cs _ =>
      e :: (fix each (l : list element) : list element :=
              match l with
              | [] => []
              | c :: l' => (iter c ++ each l')%list
              end) cs
  end.

(** The selectors of the program: [tag] and [tag[attr]]. *)
Inductive selector :=
  | SelTag (tag : string)
  | SelTagAttr (tag attr : string).

Definition selects (sel : selector) (e : element) : bool :=
  match sel with
  | SelTag t => String.eqb (tag_of e) t
  | SelTagAttr t a =>
      String.eqb (tag_of e) t
      && match assoc a (attrib_of e) with Some _ => true | None => false end
  end.

(** [doc.cssselect(sel)]. *)
Definition cssselect (sel : selector) (doc : element) : list element :=
  List.filter (selects sel) (iter doc).

(** ** The pattern of [MD.get_paths] *)

(** A pattern compiled from a [str] works on characters.  A text is held
    as its UTF-8 encoding, so a character is a group of bytes: a byte
    that is not a continuation byte ([10xxxxxx]) together with the
    continuation bytes its first bits announce. *)
Definition is_ascii (c : ascii) : bool := (nat_of_ascii c <? 128)%nat.

Definition is_continuation (c : ascii) : bool :=
  let n := nat_of_ascii c in ((128 <=? n) && (n <? 192))%nat.

(** How many continuation bytes the first byte of a character announces. *)
Definition announced (c : ascii) : nat :=
  let n := nat_of_ascii c in
  if (n <? 192)%nat then 0%nat
  else if (n <? 224)%nat then 1%nat
  else if (n <? 240)%nat then 2%nat
  else if (n <? 248)%nat then 3%nat
  else 0%nat.

(** The continuation bytes the text starts with, and the characters
    behind them. *)
Fixpoint characters_aux (bs : list ascii) : list ascii * list (list ascii) :=
  match bs with
  | [] => ([], [])
  | b :: bs' =>
      let (conts, chs) := characters_aux bs' in
      if is_continuation b then (b :: conts, chs)
      else ([], (b :: take (announced b) conts)
                :: (map (fun c => [c]) (drop (announced b) conts) ++ chs)%list)
  end.

(** The characters of a text.  Continuation bytes that no first byte
    announces stand alone; a text that is not well-formed UTF-8 is not
    the encoding of a [str]. *)
Definition characters (bs : list ascii) : list (list ascii) :=
  let (conts, chs) := characters_aux bs in
  (map (fun c => [c]) conts ++ chs)%list.

(** The character [c]. *)
Definition is_char (c : ascii) (ch : list ascii) : bool :=
  match ch with
  | [d] => Ascii.eqb d c
  | _ => false
  end.

Definition is_alnum (c : ascii) : bool :=
  let n := nat_of_ascii c in
  ((48 <=? n) && (n <=? 57) || (65 <=? n) && (n <=? 90)
   || (97 <=? n) && (n <=? 122))%nat.

(** [ch.isalnum()] for one character: the ASCII letters and digits, and
    beyond ASCII what the Unicode database [db] says of the character. *)
Definition isalnum (db : string -> bool) (ch : list ascii) : bool :=
  match ch with
  | [c] => if is_ascii c then is_alnum c else db (Str.of_chars ch)
  | _ => db (Str.of_chars ch)
  end.

(** [\w] in a [str] pattern: alphanumeric characters and the underscore. *)
Definition is_word (db : string -> bool) (ch : list ascii) : bool :=
  isalnum db ch || is_char "_" ch.

(** The class [[:\/\-\w]]. *)
Definition in_class (db : string -> bool) (ch : list ascii) : bool :=
  is_char ":" ch || is_char "/" ch || is_char "-" ch || is_word db ch.

Fixpoint take_while {A : Type} (keep : A -> bool) (cs : list A) : list A :=
  match cs with
  | c :: cs' => if keep c then c :: take_while keep cs' else []
  | [] => []
  end.

(** One attempt of [\[\[([:\/\-\w]+)] at the start of [cs]: the group. *)
Definition match_here (keep : list ascii -> bool) (cs : list (list ascii))
  : option (list (list ascii)) :=
  match cs with
  | c1 :: c2 :: rest =>
      if is_char "[" c1 && is_char "[" c2 then
        match take_while keep rest with
        | [] => None
        | run => Some run
        end
      else None
  | _ => None
  end.

(** [re.findall]: attempts from left to right; after a match the scan
    resumes behind it ([skip] counts the characters still to pass). *)
Fixpoint findall_from (keep : list ascii -> bool) (skip : nat) (cs : list (list ascii))
  : list (list (list ascii)) :=
  match cs with
  | [] => []
  | _ :: cs' =>
      match skip with
      | S k => findall_from keep k cs'
      | O =>
          match match_here keep cs with
          | Some run => run :: findall_from keep (S (List.length run)) cs'
          | None => findall_from keep 0 cs'
          end
      end
  end.

(** The text of a run of characters. *)
Definition text_of_characters (m : list (list ascii)) : string :=
  Str.of_chars (List.concat m).

Definition findall (keep : list ascii -> bool) (data : string) : list string :=
  map text_of_characters (findall_from keep 0 (characters (Str.chars data))).

(** The comprehension of [MD.get_paths] on the text read. *)
Definition MD_links (db : string -> bool) (data : string) : list string :=
  map (Str.replace ":" "/")
      (List.filter (fun m => negb (Str.startswith "http" m))
                   (findall (in_class db) data)).

(** ** Insertion-ordered dicts *)

Fixpoint dict_set {V} (k : string) (v : V) (d : list (string * V)) : list (string * V) :=
  match d with
  | [] => [(k, v)]
  | (k', v') :: d' =>
      if String.eqb k k' then (k, v) :: d' else (k', v') :: dict_set k v d'
  end.

(** A dict comprehension over the items in order. *)
Definition dict_of {V} (items : list (string * V)) : list (string * V) :=
  fold_left (fun d kv => dict_set (fst kv) (snd kv) d) items [].

Definition keys {V} (d : list (string * V)) : list string := map fst d.

Fixpoint index_of (x : string) (l : list string) : option nat :=
  match l with
  | [] => None
  | y :: l' => if String.eqb x y then Some 0%nat else S <$> index_of x l'
  end.

(** Who a method is looked up on. *)
Inductive receiver := TheClass | AnInstance | Another.

Section Program.

Variable env : Env.

(** ** The snapshot resolver *)

Definition closest_timestamp : string := "20230302".

Definition available_url (p : string) (url_suffix : option string) : string :=
  let url := "https://archive.org/wayback/available" in
  let url := url ++ "?timestamp=" ++ closest_timestamp
                 ++ "&url=https://wiki.bash-hackers.org/" ++ p in
  match url_suffix with
  | Some sfx => if Str.truthy sfx then url ++ sfx else url
  | None => url
  end.

(** [get_url]: the request is not guarded, so whatever the transport
    raises leaves the function; falling off the end returns [None]. *)
Definition get_url (p : string) (url_suffix : option string) : M (option string) :=
  let url := available_url p url_suffix in
  emit (Request url) ;;;
  loaded <- lift (available_api env url) ;;
  snapshots <- lift (py_get loaded "archived_snapshots" (JObj [])) ;;
  response <- lift (py_get snapshots "closest" (JObj [])) ;;
  available <- lift (py_get response "available" JNull) ;;
  if py_truthy available then
    status <- lift (py_get response "status" JNull) ;;
    n <- lift (py_int status) ;;
    if (n =? 200)%Z then
      stamp <- lift (py_item response "timestamp") ;;
      timestamp <- lift (match stamp with
                         | JStr s => strptime env s
                         | _ => Raise TypeError
                         end) ;;
      logging INFO (MsgSnapshot p timestamp) ;;;
      u <- lift (py_get response "url" JNull) ;;
      match u with
      | JStr u => r <- lift (insert_id_ u) ;; ret (Some r)
      | _ => raise AttributeError
      end
    else ret None
  else ret None.

(** ** The fetch *)

(** [get_response]: only [URLError] is caught (logged, [None] returned). *)
Definition get_response (url : string) : M (option response) :=
  emit (Request url) ;;;
  match urlopen env url with
  | Raise URLError => logging ERROR (MsgURLError url) ;;; ret None
  | Raise e => raise e
  | Ok r =>
      match content_type r with
      | None => raise TypeError
      | Some ct =>
          if Str.contains "image" ct then ret (Some (Bytes (body r)))
          else
            raw <- lift (if decide (content_encoding r = Some "gzip")
                         then gunzip env (body r) else Ok (body r)) ;;
            s <- lift (decode env raw) ;;
            ret (Some (Text s))
      end
  end.

(** ** The writer *)

Definition rename_if_collision (file : path) : M path :=
  f <- get_fs ;;
  if FS.is_file f (Pathlib.parent file) then
    let target := Pathlib.div (Pathlib.parent (Pathlib.parent file))
                              ("_" ++ Pathlib.stem (Pathlib.parent file)) in
    logging WARNING (MsgCollision (Pathlib.parent file) target) ;;;
    f' <- lift (FS.rename f (Pathlib.parent file) target) ;;
    put_fs f' ;;;
    ret target
  else ret file.

Definition write (file : path) (r : response) : M unit :=
  file <- rename_if_collision file ;;
  f <- get_fs ;;
  f' <- lift (FS.mkdir f (Pathlib.parent file)) ;;
  put_fs f' ;;;
  f <- get_fs ;;
  f' <- lift (FS.write_data f file (payload r)) ;;
  put_fs f'.

(** ** [MD.get_data] *)

Definition MD_get_data (r : response) : result string :=
  match fromstring env (payload r) with
  | Raise e => Raise e
  | Ok doc =>
      match cssselect (SelTag "textarea") doc with
      | first :: others =>
          match text_of first with
          | Some txt =>
              if Str.truthy txt then
                match others with
                | [] => Ok txt
                | _ => Raise AssertionError
                end
              else Ok (tostring env doc)
          | None => Ok (tostring env doc)
          end
      | [] => Ok (tostring env doc)
      end
  end.

(** ** [export_path] *)

Definition target_file (p : string) (file_suffix : option string) : path :=
  let file := Pathlib.Path p in
  match file_suffix with
  | Some sfx =>
      if Str.truthy sfx
      then Pathlib.div (Pathlib.parent file) (Pathlib.name file ++ "." ++ sfx)
      else file
  | None => file
  end.

Definition export_path (p : string) (url_suffix file_suffix : option string)
  : M (option path) :=
  url <- get_url p url_suffix ;;
  match url with
  | None => logging ERROR (MsgNoUrl p) ;;; ret None
  | Some url =>
      if negb (Str.truthy url) then logging ERROR (MsgNoUrl p) ;;; ret None
      else
        got <- get_response url ;;
        match got with
        | None => logging ERROR (MsgNoResponse url) ;;; ret None
        | Some r =>
            if negb (Str.truthy (payload r))
            then logging ERROR (MsgNoResponse url) ;;; ret None
            else
              r <- (if decide (file_suffix = Some "md")
                    then s <- lift (MD_get_data r) ;; ret (Text s)
                    else ret r) ;;
              let file := target_file p file_suffix in
              write file r ;;;
              ret (Some file)
        end
  end.

(** ** The content kind *)

Definition MD_DEAD_LINKS : list string :=
  [ "commands/builtin/true"; "commands/builtin/source"; "commands/builtin/false";
    "commands/builtin/continueBreak"; "commands/builtin/times";
    "commands/builtin/command";
    "dict/terms/file"; "dict/terms/hardlink"; "dict/terms/directory";
    "commands/builtin/alias"; "commands/builtin/hash"; "commands/builtin/fc";
    "commands/builtin/select"; "commands/builtin/continuebreak" ].

(** [MD.get_paths(file)] against a filesystem. *)
Definition MD_get_paths (f : FS.t) (file : path) : result (list string) :=
  rbind (FS.read_text f file) (fun data => Ok (MD_links (unicode_alnum env) data)).

(** The items of the comprehension of [MD.export], in order. *)
Fixpoint MD_items (f : FS.t) (files : list path) : result (list (string * path)) :=
  match files with
  | [] => Ok []
  | file :: files' =>
      rbind (MD_get_paths f file) (fun paths =>
      rbind (MD_items f files') (fun rest =>
        Ok (map (fun p => (p, file))
               (List.filter (fun p => negb (FS.exists_ f (Pathlib.Path (p ++ ".md"))))
                            paths)
            ++ rest)%list))
  end.

(** [unexported] in [MD.export]. *)
Definition MD_unexported (f : FS.t) : result (list (string * path)) :=
  rbind (MD_items f (FS.rglob f "*.md")) (fun items => Ok (dict_of items)).

Definition MD_export : M unit :=
  emit (Scan "*.md") ;;;
  f <- get_fs ;;
  unexported <- lift (MD_unexported f) ;;
  match unexported with
  | [] => logging WARNING MsgNoItems
  | _ =>
      for_each (keys unexported) (fun p =>
        export_path p (Some "?do=edit") (Some "md") ;;;
        emit (Sleep 2))
  end.

Definition MD_export_all (args : list receiver) : M unit :=
  match args with
  | [] =>
      start_file <- export_path "start" (Some "?do=edit") (Some "md") ;;
      MD_export ;;;
      MD_export
  | _ => raise TypeError
  end.

(** ** The structural kind *)

Definition HTML_DEAD_LINKS : list string :=
  [ "pagead/js/adsbygoogle.js"; "dict/terms/exit_code"; "dict/terms/filename";
    "dict/terms/ctime"; "dict/terms/positional_parameter"; "dict/start";
    "dict/terms/atime"; "dict/terms/variable"; "dict/terms/shebang";
    "dict/terms/return_status" ].

(** The values one of the two set comprehensions of [HTML.get_paths]
    lets through, in the order it visits them: the selector guarantees
    that the attribute is there. *)
Definition selected_values (doc : element) (selectors : list selector) (attr : string)
  : list string :=
  sel ← selectors;
  e ← cssselect sel doc;
  match assoc attr (attrib_of e) with
  | Some v => if Str.startswith "/" v then [v] else []
  | None => []
  end.

(** [urllib.parse.urlparse(v).path.lstrip('/')] for each value in turn;
    the first value [urlparse] rejects ends the comprehension. *)
Fixpoint url_paths (values : list string) : result (list string) :=
  match values with
  | [] => Ok []
  | v :: values' =>
      rbind (urlparse_path env v) (fun u =>
      rbind (url_paths values') (fun rest =>
        Ok (Str.lstrip "/" u :: rest)))
  end.

Definition attr_values (doc : element) (selectors : list selector) (attr : string)
  : result (list string) :=
  url_paths (selected_values doc selectors attr).

Definition HTML_paths_of (doc : element) : result (gset string) :=
  rbind (attr_values doc [SelTagAttr "a" "href"; SelTagAttr "link" "href"] "href")
    (fun href =>
  rbind (attr_values doc [SelTagAttr "script" "src"; SelTagAttr "img" "src"] "src")
    (fun src =>
    Ok (list_to_set href ∪ list_to_set src))).

(** [HTML.get_paths(file)] against a filesystem. *)
Definition HTML_get_paths (f : FS.t) (file : path) : result (gset string) :=
  rbind (FS.read_text f file) (fun data =>
  rbind (fromstring env data) (fun doc => HTML_paths_of doc)).

Fixpoint HTML_items (f : FS.t) (files : list path) : result (list (string * path)) :=
  match files with
  | [] => Ok []
  | file :: files' =>
      rbind (HTML_get_paths f file) (fun paths =>
      rbind (HTML_items f files') (fun rest =>
        Ok (map (fun p => (p, file))
               (List.filter (fun p => negb (FS.exists_ f (Pathlib.Path p))
                                      && negb (Str.startswith "_export" p))
                            (elements paths))
            ++ rest)%list))
  end.

Definition HTML_file_paths (f : FS.t) : list path :=
  Pathlib.sorted
    (List.filter (fun p => FS.is_file f p && negb (Str.truthy (Pathlib.suffix p)))
                 (FS.rglob f "*")).

(** [unexported] in [HTML.export]. *)
Definition HTML_unexported (f : FS.t) : result (list (string * path)) :=
  rbind (HTML_items f (HTML_file_paths f)) (fun items => Ok (dict_of items)).

Definition HTML_export : M unit :=
  emit (Scan "*") ;;;
  f <- get_fs ;;
  unexported <- lift (HTML_unexported f) ;;
  logging INFO (MsgWillExport (keys unexported)) ;;;
  for_each unexported (fun item =>
    export_path (fst item) None None ;;;
    emit (Sleep 1)).

Definition page_tools_open : string := "<!-- page-tools -->" ++ String "010" "".
Definition page_tools_close : string := "<!-- /page-tools -->" ++ String "010" "".

Definition HTML_comment_out_menu_tools : M unit :=
  emit (Scan "*") ;;;
  f <- get_fs ;;
  let files := List.filter
                 (fun file => FS.is_file f file
                              && negb (Str.has_char "." (Pathlib.name file)))
                 (Pathlib.sorted (FS.rglob f "*")) in
  for_each files (fun file =>
    logging DEBUG (MsgFile file) ;;;
    f <- get_fs ;;
    data <- lift (FS.read_text f file) ;;
    let file_content := FS.readlines data in
    match index_of page_tools_open file_content with
    | None => ret tt
    | Some i =>
        logging INFO (MsgRemoving file) ;;;
        let file_content :=
          <[i := "<!-- page-tools" ++ String "010" ""]> file_content in
        match index_of page_tools_close file_content with
        | None => raise ValueError
        | Some j =>
            let file_content :=
              <[j := "/page-tools -->" ++ String "010" ""]> file_content in
            f' <- lift (FS.write_data f file (Str.join "" file_content)) ;;
            put_fs f'
        end
    end).

(** [range(5)] passes of a comprehension that keeps nothing. *)
Fixpoint repeat_pass (n : nat) (pass : M unit) : M unit :=
  match n with
  | O => ret tt
  | S n' => pass ;;; repeat_pass n' pass
  end.

Definition HTML_export_all (args : list receiver) : M unit :=
  match args with
  | [self] =>
      start_file <- export_path "start" None None ;;
      match start_file with
      | None => raise TypeError
      | Some target =>
          f <- get_fs ;;
          f' <- lift (FS.symlink_to f ["index.html"] target) ;;
          put_fs f' ;;;
          repeat_pass 5 HTML_export ;;;
          match self with
          | TheClass => HTML_comment_out_menu_tools
          | AnInstance => raise TypeError
          | Another => raise AttributeError
          end
      end
  | _ => raise TypeError
  end.

(** ** [main] *)

Definition main : M unit :=
  HTML_export_all [] ;;;
  MD_export_all [].

End Program.

(** * Reference definitions and fixtures *)

(** What [get_url] finds under [archived_snapshots.closest]. *)
Definition closest_of (loaded : json) : result json :=
  rbind (py_get loaded "archived_snapshots" (JObj [])) (fun snapshots =>
  py_get snapshots "closest" (JObj [])).

Definition requested (st : state) (url : string) : state :=
  State (fs st) (trace st ++ [Request url]).

(** The path [urllib.parse.urlparse] gives for a value without a
    scheme: a leading [//netloc] is dropped, then the fragment, the
    query and the parameters of the last segment; a [netloc] with one
    of the brackets [[] and []] and not the other is rejected. *)
Fixpoint drop_while (keep : ascii -> bool) (cs : list ascii) : list ascii :=
  match cs with
  | c :: cs' => if keep c then drop_while keep cs' else cs
  | [] => []
  end.

Definition cut (c : ascii) (cs : list ascii) : list ascii :=
  take_while (fun d => negb (Ascii.eqb d c)) cs.

Definition drop_netloc (cs : list ascii) : list ascii :=
  match cs with
  | c1 :: c2 :: rest =>
      if Ascii.eqb c1 "/"%char && Ascii.eqb c2 "/"%char
      then drop_while (fun d => negb (Ascii.eqb d "/"%char || Ascii.eqb d "?"%char
                                      || Ascii.eqb d "#"%char)) rest
      else cs
  | _ => cs
  end.

Definition strip_params (cs : list ascii) : list ascii :=
  let segment := rev (take_while (fun d => negb (Ascii.eqb d "/"%char)) (rev cs)) in
  (take (List.length cs - List.length segment) cs ++ cut ";" segment)%list.

Definition netloc (cs : list ascii) : list ascii :=
  match cs with
  | c1 :: c2 :: rest =>
      if Ascii.eqb c1 "/"%char && Ascii.eqb c2 "/"%char
      then take_while (fun d => negb (Ascii.eqb d "/"%char || Ascii.eqb d "?"%char
                                      || Ascii.eqb d "#"%char)) rest
      else []
  | _ => []
  end.

Definition url_path (v : string) : result string :=
  let cs := Str.chars v in
  if xorb (existsb (Ascii.eqb "["%char) (netloc cs))
          (existsb (Ascii.eqb "]"%char) (netloc cs))
  then Raise ValueError
  else Ok (Str.of_chars (strip_params (cut "?" (cut "#" (drop_netloc cs))))).

(** A stand-in for the Unicode database: the letters from U+00C0 to
    U+00FF, whose encoding is the byte 195 and one more byte; U+00D7 and
    U+00F7 are signs, not letters. *)
Definition latin_letter (ch : string) : bool :=
  match Str.chars ch with
  | [b1; b2] =>
      let n := nat_of_ascii b2 in
      ((nat_of_ascii b1 =? 195) && (128 <=? n) && (n <? 192)
       && negb (n =? 151) && negb (n =? 183))%nat
  | _ => false
  end.

(** A stand-in for [strptime] with [%Y%m%d%H%M%S]: fourteen digits are
    accepted and printed as a date and a time. *)
Definition stamp_of (s : string) : result string :=
  if (String.length s =? 14)%nat && forallb (fun c => bool_decide (is_Some (digit c))) (Str.chars s)
  then Ok (String.substring 0 4 s ++ "-" ++ String.substring 4 2 s ++ "-"
           ++ String.substring 6 2 s ++ " " ++ String.substring 8 2 s ++ ":"
           ++ String.substring 10 2 s ++ ":" ++ String.substring 12 2 s)
  else Raise ValueError.

(** An environment whose availability endpoint cannot be reached. *)
Definition offline : Env := {|
  available_api := fun _ => Raise URLError;
  urlopen := fun _ => Raise URLError;
  gunzip := Ok;
  decode := Ok;
  fromstring := fun _ => Raise ParserError;
  tostring := fun _ => "";
  urlparse_path := url_path;
  unicode_alnum := latin_letter;
  strptime := stamp_of
|}.

(** The answer of the availability endpoint for a capture. *)
Definition snapshot_json (status ts url : string) : json :=
  JObj [("url", JStr "wiki.bash-hackers.org");
        ("archived_snapshots",
         JObj [("closest",
                JObj [("status", JStr status); ("available", JBool true);
                      ("url", JStr url); ("timestamp", JStr ts)])])].

(** An environment in which every path has a capture with the same body. *)
Definition archive (page : string) (doc : result element) : Env := {|
  available_api := fun _ =>
    Ok (snapshot_json "200" "20230302010203"
          "http://web.archive.org/web/20230302010203/https://wiki.bash-hackers.org/start");
  urlopen := fun _ => Ok (HttpResponse (Some "text/html") None page);
  gunzip := Ok;
  decode := Ok;
  fromstring := fun _ => doc;
  tostring := fun _ => page;
  urlparse_path := url_path;
  unicode_alnum := latin_letter;
  strptime := stamp_of
|}.

Definition empty_state : state := State ∅ [].

(** A tree in which [a/b] is a file. *)
Definition occupied : FS.t :=
  {[ ["a"] := Dir; ["a"; "b"] := File "old" ]}.

(** A page with two text inputs, both with text. *)
Definition two_textareas : element :=
  Element "html" [] None
    [Element "body" [] None
       [Element "textarea" [] (Some "first") [] None;
        Element "textarea" [] (Some "second") [] None]
       None]
    None.

(** A page with one text input holding the markup. *)
Definition edit_view : element :=
  Element "html" [] None
    [Element "body" [] None
       [Element "textarea" [] (Some "[[commands:builtin:echo]]") [] None]
       None]
    None.

(** A structural page with the four kinds of link. *)
Definition linked_page : element :=
  Element "html" [] None
    [Element "head" [] None
       [Element "link" [("rel", "stylesheet"); ("href", "/lib/exe/css.php?t=bh")] None [] None;
        Element "script" [("src", "//pagead2.example.com/pagead/js/ads.js")] None [] None]
       None;
     Element "body" [] None
       [Element "a" [("href", "/commands/builtin/echo")] (Some "echo") [] None;
        Element "a" [("href", "/commands/builtin/echo")] (Some "again") [] None;
        Element "a" [("href", "http://example.com/")] (Some "out") [] None;
        Element "a" [("href", "#top")] (Some "top") [] None;
        Element "img" [("src", "/lib/images/logo.png")] None [] None]
       None]
    None.

(** A structural page one of whose anchors has a value [urlparse]
    rejects. *)
Definition malformed_link_page : element :=
  Element "html" [] None
    [Element "body" [] None
       [Element "a" [("href", "/commands/builtin/echo")] (Some "echo") [] None;
        Element "a" [("href", "//[x")] (Some "odd") [] None]
       None]
    None.

(** The values of a document that [HTML.get_paths] hands to [urlparse]:
    the [href] of an anchor or link and the [src] of a script or image,
    when it begins with ["/"]. *)
Definition link_value (doc : element) (v : string) : Prop :=
  ∃ e, e ∈ iter doc
       ∧ (((tag_of e = "a" ∨ tag_of e = "link")
           ∧ assoc "href" (attrib_of e) = Some v)
          ∨ ((tag_of e = "script" ∨ tag_of e = "img")
             ∧ assoc "src" (attrib_of e) = Some v))
       ∧ Str.startswith "/" v = true.

(** The class of the pattern as the specification words it: letters,
    digits, [-], [/], [:]. *)
Definition specified_class (db : string -> bool) (ch : list ascii) : bool :=
  isalnum db ch || is_char "-" ch || is_char "/" ch || is_char ":" ch.

(** [MD.get_paths] as the specification words it. *)
Definition MD_links_as_specified (db : string -> bool) (data : string) : list string :=
  map (Str.replace ":" "/")
      (List.filter (fun m => negb (Str.startswith "http" m))
                   (findall (specified_class db) data)).

(** A character is one byte followed by continuation bytes only, as
    many as the byte announces at most. *)
Definition well_grouped (ch : list ascii) : Prop :=
  ∃ b t, ch = b :: t
         ∧ Forall (fun c => is_continuation c = true) t
         ∧ (List.length t ≤ announced b)%nat.

(** The occurrences the pattern finds in a text: [[[] followed by the
    longest run [m] of characters of the class, which is not empty. *)
Definition link_at (keep : list ascii -> bool) (cs m : list (list ascii)) : Prop :=
  ∃ pre post,
    cs = (pre ++ ["["%char] :: ["["%char] :: m ++ post)%list
    ∧ m ≠ []
    ∧ Forall (fun c => keep c = true) m
    ∧ match post with [] => True | c :: _ => keep c = false end.

(** The marks a pass leaves in the trace: a pass of the content kind
    scans for [*.md]; a pass of the structural kind logs what it will
    export. *)
Definition md_pass (ev : event) : nat :=
  match ev with
  | Scan pattern => if String.eqb pattern "*.md" then 1 else 0
  | _ => 0
  end.

Definition html_pass (ev : event) : nat :=
  match ev with
  | Log INFO (MsgWillExport _) => 1
  | _ => 0
  end.

(** The events of resolving, fetching and writing one path. *)
Definition export_event (ev : event) : bool :=
  match ev with
  | Scan _ => false
  | Log _ (MsgWillExport _) => false
  | _ => true
  end.

Definition weight (w : event -> nat) (evs : list event) : nat :=
  list_sum (map w evs).

(** [emits w n m]: [m] only appends to the trace; what it appends
    weighs at most [n], and exactly [n] when [m] returns. *)
Definition emits {A} (w : event -> nat) (n : nat) (m : M A) : Prop :=
  ∀ st, ∃ evs,
    trace (snd (m st)) = (trace st ++ evs)%list
    ∧ (weight w evs <= n)%nat
    ∧ ∀ a, fst (m st) = Ok a → weight w evs = n.

(** A page without links. *)
Definition plain_page : element :=
  Element "html" [] None
    [Element "body" [] None [Element "p" [] (Some "bash") [] None] None] None.

(** The logged frontiers of the structural passes, in order. *)
Fixpoint logged_frontiers (evs : list event) : list (list string) :=
  match evs with
  | [] => []
  | Log INFO (MsgWillExport paths) :: evs' => paths :: logged_frontiers evs'
  | _ :: evs' => logged_frontiers evs'
  end.

(** A content tree whose only link is on the dead-link list. *)
Definition dead_link_tree : FS.t :=
  {[ ["start.md"] := File "[[commands:builtin:true]]" ]}.

(** A structural tree whose only link is on the dead-link list. *)
Definition dead_link_page : element :=
  Element "html" [] None
    [Element "body" [] None
       [Element "a" [("href", "/dict/start")] (Some "dict") [] None] None] None.

Definition dead_link_html_tree : FS.t :=
  {[ ["start"] := File "<html>dict</html>" ]}.

(** A content tree whose only link points to a file that is there. *)
Definition closed_tree : FS.t :=
  {[ ["start.md"] := File "back to [[start]]" ]}.



(** [keeps_fs m]: [m] leaves the tree as it is, also when it raises. *)
Definition keeps_fs {A} (m : M A) : Prop :=
  ∀ st, fs (snd (m st)) = fs st.

(** An environment in which no path has a capture: the endpoint answers
    with empty [archived_snapshots]. *)
Definition unarchived : Env := {|
  available_api := fun _ =>
    Ok (JObj [("url", JStr "wiki.bash-hackers.org"); ("archived_snapshots", JObj [])]);
  urlopen := fun _ => Raise URLError;
  gunzip := Ok;
  decode := Ok;
  fromstring := fun _ => Raise ParserError;
  tostring := fun _ => "";
  urlparse_path := url_path;
  unicode_alnum := latin_letter;
  strptime := stamp_of
|}.

(** The path [write] writes to: the path [rename_if_collision] returns. *)
Definition written_path (f : FS.t) (file : path) : path :=
  if FS.is_file f (Pathlib.parent file)
  then Pathlib.div (Pathlib.parent (Pathlib.parent file))
                   ("_" ++ Pathlib.stem (Pathlib.parent file))
  else file.

(** [same_shape f f']: the two trees have the same entries of the same
    kinds; only the contents of files may differ. *)
Definition same_shape (f f' : FS.t) : Prop :=
  ∀ p, match f !! p with
       | Some (File _) => ∃ data, f' !! p = Some (File data)
       | other => f' !! p = other
       end.

(** No file of the tree has the line that opens the page tools. *)
Definition no_page_tools (f : FS.t) : Prop :=
  ∀ file data, FS.read_text f file = Ok data →
               index_of page_tools_open (FS.readlines data) = None.

(** The seconds an event pauses. *)
Definition pause (ev : event) : nat :=
  match ev with
  | Sleep seconds => seconds
  | _ => 0
  end.

(** A tree with a directory whose name ends in [.md]. *)
Definition md_directory_tree : FS.t := {[ ["notes.md"] := Dir ]}.

(** A page with the page tools between their two marker lines, and one
    whose closing line is missing. *)
Definition newline : string := String "010" "".

Definition tools_page : string :=
  "<p>" ++ newline ++ "<!-- page-tools -->" ++ newline ++ "<ul>" ++ newline
  ++ "<!-- /page-tools -->" ++ newline.

Definition open_tools_page : string :=
  "<p>" ++ newline ++ "<!-- page-tools -->" ++ newline ++ "<ul>" ++ newline.

(** * Properties *)

(** ** The model on concrete inputs *)

Example insert_id_archive :
  insert_id_ "http://web.archive.org/web/20230302000000/https://wiki.bash-hackers.org/start"
  = Ok "http://web.archive.org/web/20230302000000id_/https://wiki.bash-hackers.org/start".
Proof. reflexivity. Qed.

Example insert_id_short : insert_id_ "http://web.archive.org/web" = Raise IndexError.
Proof. reflexivity. Qed.

Example Path_normalizes :
  Pathlib.Path "commands//builtin/./echo/" = ["commands"; "builtin"; "echo"]
  ∧ Pathlib.Path "/commands" = ["/"; "commands"]
  ∧ Pathlib.Path "" = [].
Proof. repeat split. Qed.

Example stem_and_suffix :
  Pathlib.stem ["a"; "b.tar.gz"] = "b.tar"
  ∧ Pathlib.suffix ["a"; "b.tar.gz"] = ".gz"
  ∧ Pathlib.stem ["a"; ".profile"] = ".profile"
  ∧ Pathlib.suffix ["index.html"] = ".html".
Proof. repeat split. Qed.

Example url_path_examples :
  url_path "/lib/exe/css.php?t=bh" = Ok "/lib/exe/css.php"
  ∧ url_path "//pagead2.example.com/pagead/js/ads.js" = Ok "/pagead/js/ads.js"
  ∧ url_path "/commands/builtin/echo;x=1#top" = Ok "/commands/builtin/echo"
  ∧ url_path "//[x" = Raise ValueError
  ∧ url_path "//[::1]/x" = Ok "/x".
Proof. repeat split. Qed.

Example HTML_paths_of_linked_page :
  HTML_paths_of (archive "" (Ok linked_page)) linked_page
  = Ok {[ "lib/exe/css.php"; "pagead/js/ads.js"; "commands/builtin/echo";
          "lib/images/logo.png" ]}.
Proof.
  unfold HTML_paths_of.
  assert (attr_values (archive "" (Ok linked_page)) linked_page
            [SelTagAttr "a" "href"; SelTagAttr "link" "href"] "href"
          = Ok ["commands/builtin/echo"; "commands/builtin/echo"; "lib/exe/css.php"])
    as -> by reflexivity.
  assert (attr_values (archive "" (Ok linked_page)) linked_page
            [SelTagAttr "script" "src"; SelTagAttr "img" "src"] "src"
          = Ok ["pagead/js/ads.js"; "lib/images/logo.png"])
    as -> by reflexivity.
  cbn [rbind]. apply (f_equal Ok).
  apply (bool_decide_eq_true_1 _ (Decision0 := decide_rel (=) _ _)).
  vm_compute. reflexivity.
Qed.

Example characters_of_a_text :
  characters (Str.chars "né[[") = [Str.chars "n"; Str.chars "é"; Str.chars "["; Str.chars "["]
  ∧ List.length (Str.chars "é") = 2%nat.
Proof. split; reflexivity. Qed.

Example findall_resumes_behind_a_match (db : string → bool) :
  findall (in_class db) "[[[a:b]] x[[c-d_e/f]][[]] [[g" = ["a:b"; "c-d_e/f"; "g"].
Proof. reflexivity. Qed.

Example MD_links_beyond_ascii :
  MD_links latin_letter "[[café:übung]] [[a×b]]" = ["café/übung"; "a"].
Proof. reflexivity. Qed.

Example rename_then_write_of_a_free_path :
  write ["a"; "c"] (Text "new") (State occupied [])
  = (Ok tt, State {[ ["a"] := Dir; ["a"; "b"] := File "old"; ["a"; "c"] := File "new" ]} []).
Proof. vm_compute. reflexivity. Qed.

(** ** Strings *)

Lemma split_no_sep (c : ascii) (x : string) :
  Str.has_char c x = false → Str.split c x = [x].
Proof.
  unfold Str.has_char, Str.chars.
  induction x as [|d x IH]; simpl; [done|].
  intros H. apply orb_false_iff in H as [Hd Hx].
  rewrite Ascii.eqb_sym in Hd. rewrite Hd, (IH Hx). done.
Qed.

Lemma split_app_sep (c : ascii) (x s : string) :
  Str.has_char c x = false →
  Str.split c (x ++ String c s) = x :: Str.split c s.
Proof.
  unfold Str.has_char, Str.chars.
  induction x as [|d x IH]; simpl.
  - intros _. by rewrite Ascii.eqb_refl.
  - intros H. apply orb_false_iff in H as [Hd Hx].
    rewrite Ascii.eqb_sym in Hd. rewrite Hd, (IH Hx). done.
Qed.

(** Splitting the join of separator-free segments gives the segments back. *)
Lemma split_join (c : ascii) (x : string) (l : list string) :
  Forall (fun s => Str.has_char c s = false) (x :: l) →
  Str.split c (Str.join (String c "") (x :: l)) = x :: l.
Proof.
  revert x. induction l as [|y l IH]; intros x H.
  - simpl. apply split_no_sep. by inversion H.
  - inversion H as [|? ? Hx Hl]; subst.
    change (Str.join (String c "") (x :: y :: l))
      with (x ++ String c (Str.join (String c "") (y :: l))).
    rewrite split_app_sep by done. by rewrite IH.
Qed.

(** ** The monad *)

Lemma bind_ok {A B} (m : M A) (k : A → M B) st b st' :
  bind m k st = (Ok b, st') →
  ∃ a st1, m st = (Ok a, st1) ∧ k a st1 = (Ok b, st').
Proof.
  unfold bind. destruct (m st) as [[a|e] st1]; intros H; [eauto|done].
Qed.

Lemma bind_eq {A B} (m : M A) (k : A → M B) st a st1 :
  m st = (Ok a, st1) → bind m k st = k a st1.
Proof. unfold bind. by intros ->. Qed.

Lemma bind_raise {A B} (m : M A) (k : A → M B) st e st1 :
  m st = (Raise e, st1) → bind m k st = (Raise e, st1).
Proof. unfold bind. by intros ->. Qed.

(** ** The resolver *)

(** No snapshot: [closest] is absent, [get_url] returns [None]. *)
Lemma get_url_no_snapshot env p sfx st loaded :
  available_api env (available_url p sfx) = Ok loaded →
  closest_of loaded = Ok (JObj []) →
  get_url env p sfx st = (Ok None, requested st (available_url p sfx)).
Proof.
  intros Hapi Hc. unfold get_url, closest_of in *.
  unfold bind at 1. cbn [emit]. unfold bind at 1, lift at 1. rewrite Hapi.
  destruct (py_get loaded "archived_snapshots" (JObj [])) as [snaps|]; [|done].
  unfold bind at 1, lift at 1. simpl in Hc.
  unfold bind at 1, lift at 1. rewrite Hc. done.
Qed.

(** A snapshot whose status is not 200: [get_url] returns [None]. *)
Lemma get_url_not_200 env p sfx st loaded kv status n :
  available_api env (available_url p sfx) = Ok loaded →
  closest_of loaded = Ok (JObj kv) →
  assoc "status" kv = Some status →
  py_int status = Ok n → n ≠ 200%Z →
  get_url env p sfx st = (Ok None, requested st (available_url p sfx)).
Proof.
  intros Hapi Hc Hs Hn Hne. unfold get_url, closest_of in *.
  unfold bind at 1. cbn [emit]. unfold bind at 1, lift at 1. rewrite Hapi.
  destruct (py_get loaded "archived_snapshots" (JObj [])) as [snaps|]; [|done].
  unfold bind at 1, lift at 1. simpl in Hc.
  unfold bind at 1, lift at 1. rewrite Hc.
  unfold bind at 1, lift at 1. cbn [py_get].
  destruct (py_truthy _); [|done].
  unfold bind at 1, lift at 1. rewrite Hs. cbn [default from_option id].
  unfold bind at 1, lift at 1. rewrite Hn.
  destruct (Z.eqb_spec n 200); done.
Qed.

(** Whatever the request to the availability endpoint raises leaves
    [get_url]. *)
Lemma get_url_propagates (env : Env) (p : string) (sfx : option string)
    (st : state) (e : exn) :
  available_api env (available_url p sfx) = Raise e →
  get_url env p sfx st = (Raise e, requested st (available_url p sfx)).
Proof.
  intros Hapi. unfold get_url.
  unfold bind at 1. cbn [emit]. unfold bind at 1, lift at 1. by rewrite Hapi.
Qed.

(** C3, at the failing input: when the request to the availability
    endpoint fails with [URLError], [get_url] does not return [None]: the
    exception leaves the function, for every path and suffix. *)
Theorem get_url_transport_failure_raises (p : string) (sfx : option string) (st : state) :
  get_url offline p sfx st = (Raise URLError, requested st (available_url p sfx)).
Proof. reflexivity. Qed.

(** C10: when the endpoint answers with a snapshot that is available, has
    status 200, a timestamp [strptime] accepts and the replay URL
    [s0/s1/s2/s3/seg/rest...], [get_url] logs the timestamp and returns
    that URL with [id_] appended to its fifth segment [seg], the
    timestamp segment of an archive URL. *)
Theorem get_url_inserts_id_ env p sfx st loaded kv avail status ts t
    (s0 s1 s2 s3 seg : string) (rest : list string) :
  available_api env (available_url p sfx) = Ok loaded →
  closest_of loaded = Ok (JObj kv) →
  assoc "available" kv = Some avail → py_truthy avail = true →
  assoc "status" kv = Some status → py_int status = Ok 200%Z →
  assoc "timestamp" kv = Some (JStr ts) → strptime env ts = Ok t →
  Forall (fun s => Str.has_char "/" s = false) (s0 :: s1 :: s2 :: s3 :: seg :: rest) →
  assoc "url" kv = Some (JStr (Str.join "/" (s0 :: s1 :: s2 :: s3 :: seg :: rest))) →
  get_url env p sfx st
  = (Ok (Some (Str.join "/" (s0 :: s1 :: s2 :: s3 :: (seg ++ "id_") :: rest))),
     State (fs st) (trace st ++ [Request (available_url p sfx);
                                 Log INFO (MsgSnapshot p t)])).
Proof.
  intros Hapi Hc Ha Hat Hs Hn Hts Ht Hseg Hu. unfold get_url, closest_of in *.
  unfold bind at 1. cbn [emit]. unfold bind at 1, lift at 1. rewrite Hapi.
  destruct (py_get loaded "archived_snapshots" (JObj [])) as [snaps|]; [|done].
  unfold bind at 1, lift at 1. simpl in Hc.
  unfold bind at 1, lift at 1. rewrite Hc.
  unfold bind at 1, lift at 1. cbn [py_get]. rewrite Ha. cbn [default from_option id]. rewrite Hat.
  unfold bind at 1, lift at 1. rewrite Hs. cbn [default from_option id].
  unfold bind at 1, lift at 1. rewrite Hn. cbn [Z.eqb Pos.eqb].
  unfold bind at 1, lift at 1. cbn [py_item]. rewrite Hts.
  unfold bind at 1, lift at 1. rewrite Ht.
  unfold bind at 1, logging, emit. cbn [fs trace].
  unfold bind at 1, lift at 1. rewrite Hu. cbn [default from_option id].
  unfold bind at 1, lift at 1. unfold insert_id_.
  rewrite (split_join "/" s0 (s1 :: s2 :: s3 :: seg :: rest)) by done.
  cbn [lookup list_lookup insert list_insert]. unfold ret.
  by rewrite <- app_assoc.
Qed.

Lemma get_url_inserts_id_witness :
  get_url (archive "" (Raise ParserError)) "start" None empty_state
  = (Ok (Some "http://web.archive.org/web/20230302010203id_/https://wiki.bash-hackers.org/start"),
     State ∅ [Request (available_url "start" None);
              Log INFO (MsgSnapshot "start" "2023-03-02 01:02:03")]).
Proof.
  eapply (get_url_inserts_id_ (archive "" (Raise ParserError)) "start" None empty_state
           _ _ (JBool true) (JStr "200") "20230302010203" "2023-03-02 01:02:03"
           "http:" "" "web.archive.org" "web" "20230302010203"
           ["https:"; ""; "wiki.bash-hackers.org"; "start"]);
    try reflexivity.
  repeat constructor.
Defined.

(** ** [main] *)

(** C4: [main] calls [HTML.export_all] with no argument although it
    declares [self]; the call raises [TypeError] at once, whatever the
    environment and the state, and the state is untouched: nothing is
    requested, logged or written. *)
Theorem main_raises_missing_argument (env : Env) (st : state) :
  main env st = (Raise TypeError, st).
Proof. reflexivity. Qed.

(** ** The writer *)

(** C1, at the failing input: with a file [a/b] holding ["old"], writing
    ["new"] to [a/b/c] renames [a/b] to [a/_b] and then writes ["new"]
    to [a/_b], the path [rename] returned: [a/b/c] is not created and
    ["old"] is lost. *)
Theorem write_collision_overwrites_renamed_file :
  write ["a"; "b"; "c"] (Text "new") (State occupied [])
  = (Ok tt,
     State {[ ["a"] := Dir; ["a"; "_b"] := File "new" ]}
           [Log WARNING (MsgCollision ["a"; "b"] ["a"; "_b"])]).
Proof. vm_compute. reflexivity. Qed.

(** ** Text extraction *)

Lemma truthy_nonempty (s : string) : s ≠ "" → Str.truthy s = true.
Proof. by destruct s. Qed.

(** C6 as stated fails: on a page with two text inputs of which the
    first has text, [MD.get_data] does not fall back to the serialized
    document; the assertion fails. *)
Lemma get_data_two_textareas_raises :
  let env := archive "<html>two</html>" (Ok two_textareas) in
  fromstring env (payload (Text "<html>two</html>")) = Ok two_textareas
  ∧ List.length (cssselect (SelTag "textarea") two_textareas) = 2%nat
  ∧ MD_get_data env (Text "<html>two</html>") = Raise AssertionError
  ∧ MD_get_data env (Text "<html>two</html>") ≠ Ok (tostring env two_textareas).
Proof. repeat split; done. Qed.

(** C6, amended: on the parsed page, [MD.get_data] returns the text of
    the text input when there is exactly one and it has text; it returns
    the serialized document when there is no text input or the first one
    has no text; it raises [AssertionError] when the first of several
    text inputs has text.  And [export_path] with the file suffix ["md"]
    writes what [MD.get_data] makes of the fetched body (and writes
    nothing when [MD.get_data] raises). *)
Theorem text_extraction_rule (env : Env) :
  (∀ r doc, fromstring env (payload r) = Ok doc →
     (∀ ta txt, cssselect (SelTag "textarea") doc = [ta] →
        text_of ta = Some txt → txt ≠ "" → MD_get_data env r = Ok txt)
     ∧ (∀ ta other others txt, cssselect (SelTag "textarea") doc = ta :: other :: others →
        text_of ta = Some txt → txt ≠ "" → MD_get_data env r = Raise AssertionError)
     ∧ (cssselect (SelTag "textarea") doc = [] → MD_get_data env r = Ok (tostring env doc))
     ∧ (∀ ta others, cssselect (SelTag "textarea") doc = ta :: others →
        text_of ta = None ∨ text_of ta = Some "" →
        MD_get_data env r = Ok (tostring env doc)))
  ∧ (∀ p url_suffix st url st1 r st2,
       get_url env p url_suffix st = (Ok (Some url), st1) → url ≠ "" →
       get_response env url st1 = (Ok (Some r), st2) → payload r ≠ "" →
       export_path env p url_suffix (Some "md") st
       = match MD_get_data env r with
         | Ok s => (write (target_file p (Some "md")) (Text s) ;;;
                    ret (Some (target_file p (Some "md")))) st2
         | Raise e => (Raise e, st2)
         end).
Proof.
  split.
  - intros r doc Hdoc. unfold MD_get_data. rewrite Hdoc.
    repeat split.
    + intros ta txt -> -> Htxt. by rewrite truthy_nonempty.
    + intros ta other others txt -> -> Htxt. by rewrite truthy_nonempty.
    + by intros ->.
    + intros ta others -> [-> | ->]; done.
  - intros p us st url st1 r st2 Hurl Hne Hresp Hbody.
    unfold export_path. rewrite (bind_eq _ _ _ _ _ Hurl).
    rewrite (truthy_nonempty _ Hne). cbn [negb].
    rewrite (bind_eq _ _ _ _ _ Hresp).
    rewrite (truthy_nonempty _ Hbody). cbn [negb].
    destruct (decide (Some "md" = Some "md")) as [_|]; [|done].
    unfold bind at 1. unfold bind at 1, lift at 1.
    destruct (MD_get_data env r); done.
Qed.

Lemma text_extraction_rule_witness :
  let env := archive "<html>edit</html>" (Ok edit_view) in
  let url := "http://web.archive.org/web/20230302010203id_/https://wiki.bash-hackers.org/start" in
  let st2 := State ∅ [Request (available_url "start" (Some "?do=edit"));
                      Log INFO (MsgSnapshot "start" "2023-03-02 01:02:03");
                      Request url] in
  MD_get_data env (Text "<html>edit</html>") = Ok "[[commands:builtin:echo]]"
  ∧ export_path env "start" (Some "?do=edit") (Some "md") empty_state
    = (write ["start.md"] (Text "[[commands:builtin:echo]]") ;;;
       ret (Some ["start.md"])) st2.
Proof.
  intros env url st2.
  destruct (text_extraction_rule env) as [Hdata Hexport].
  split.
  - destruct (Hdata (Text "<html>edit</html>") edit_view eq_refl) as [Hone _].
    apply (Hone (Element "textarea" [] (Some "[[commands:builtin:echo]]") [] None));
      [reflexivity | reflexivity | discriminate].
  - apply (Hexport "start" (Some "?do=edit") empty_state url
             (State ∅ [Request (available_url "start" (Some "?do=edit"));
                       Log INFO (MsgSnapshot "start" "2023-03-02 01:02:03")])
             (Text "<html>edit</html>") st2);
      [reflexivity | discriminate | reflexivity | discriminate].
Defined.

(** ** Structural extraction *)

Lemma lstrip_not_startswith (c : ascii) (s : string) :
  Str.startswith (String c "") (Str.lstrip c s) = false.
Proof.
  induction s as [|d s IH]; [done|]. simpl.
  destruct (Ascii.eqb d c) eqn:E; [done|].
  simpl. destruct (ascii_dec c d) as [->|]; [|done].
  by rewrite Ascii.eqb_refl in E.
Qed.

Lemma elem_of_cssselect (sel : selector) (doc e : element) :
  e ∈ cssselect sel doc ↔ e ∈ iter doc ∧ selects sel e = true.
Proof. unfold cssselect. rewrite !list_elem_of_In. apply filter_In. Qed.

Lemma elem_of_selected_values (doc : element) (sels : list selector) (attr v : string) :
  v ∈ selected_values doc sels attr ↔
  ∃ sel e, sel ∈ sels ∧ e ∈ cssselect sel doc
           ∧ assoc attr (attrib_of e) = Some v
           ∧ Str.startswith "/" v = true.
Proof.
  unfold selected_values. rewrite list_elem_of_bind. split.
  - intros (sel & Hp & Hsel). apply list_elem_of_bind in Hp as (e & Hp & He).
    destruct (assoc attr (attrib_of e)) as [w|] eqn:Hv; [|by apply elem_of_nil in Hp].
    destruct (Str.startswith "/" w) eqn:Hs; [|by apply elem_of_nil in Hp].
    apply list_elem_of_singleton in Hp as ->. eauto 10.
  - intros (sel & e & Hsel & He & Hv & Hs).
    exists sel. split; [|done]. apply list_elem_of_bind. exists e. split; [|done].
    rewrite Hv, Hs. by apply list_elem_of_singleton.
Qed.

(** The values of a document that [HTML.get_paths] hands to [urlparse]. *)
Lemma link_value_selected (doc : element) (v : string) :
  link_value doc v ↔
  v ∈ selected_values doc [SelTagAttr "a" "href"; SelTagAttr "link" "href"] "href"
  ∨ v ∈ selected_values doc [SelTagAttr "script" "src"; SelTagAttr "img" "src"] "src".
Proof.
  rewrite !elem_of_selected_values. unfold link_value. split.
  - intros (e & He & [[Ht Hv]|[Ht Hv]] & Hs); [left|right].
    + exists (SelTagAttr (tag_of e) "href"), e.
      split; [destruct Ht as [-> | ->]; set_solver|].
      split; [|done]. apply elem_of_cssselect. split; [done|].
      simpl. by rewrite String.eqb_refl, Hv.
    + exists (SelTagAttr (tag_of e) "src"), e.
      split; [destruct Ht as [-> | ->]; set_solver|].
      split; [|done]. apply elem_of_cssselect. split; [done|].
      simpl. by rewrite String.eqb_refl, Hv.
  - intros [(sel & e & Hsel & He & Hv & Hs)|(sel & e & Hsel & He & Hv & Hs)];
      apply elem_of_cssselect in He as [He Hm];
      exists e; (split; [done|]); (split; [|done]).
    + left. split; [|done].
      apply elem_of_cons in Hsel as [->|Hsel];
        [|apply list_elem_of_singleton in Hsel as ->];
        simpl in Hm; apply andb_true_iff in Hm as [Ht _];
        apply String.eqb_eq in Ht; auto.
    + right. split; [|done].
      apply elem_of_cons in Hsel as [->|Hsel];
        [|apply list_elem_of_singleton in Hsel as ->];
        simpl in Hm; apply andb_true_iff in Hm as [Ht _];
        apply String.eqb_eq in Ht; auto.
Qed.

Lemma url_paths_Ok (env : Env) (values paths : list string) :
  url_paths env values = Ok paths →
  (∀ v, v ∈ values → ∃ u, urlparse_path env v = Ok u)
  ∧ (∀ p, p ∈ paths ↔
       ∃ v u, v ∈ values ∧ urlparse_path env v = Ok u ∧ p = Str.lstrip "/" u).
Proof.
  revert paths. induction values as [|w values IH]; intros paths H; simpl in H.
  - injection H as <-. split; [by intros v Hv; apply elem_of_nil in Hv|].
    intros p. split; [by intros Hp; apply elem_of_nil in Hp|].
    intros (v & u & Hv & _). by apply elem_of_nil in Hv.
  - destruct (urlparse_path env w) as [u0|] eqn:Hw; [|done]. simpl in H.
    destruct (url_paths env values) as [rest|]; [|done]. simpl in H.
    injection H as <-. destruct (IH rest eq_refl) as [IHv IHp]. split.
    + intros v Hv. apply elem_of_cons in Hv as [->|Hv]; [eauto | by apply IHv].
    + intros p. rewrite elem_of_cons, IHp. split.
      * intros [->|(v & u & Hv & Hu & ->)].
        -- exists w, u0. split; [apply elem_of_cons; by left | done].
        -- exists v, u. split; [apply elem_of_cons; by right | done].
      * intros (v & u & Hv & Hu & ->). apply elem_of_cons in Hv as [->|Hv].
        -- left. congruence.
        -- right. eauto.
Qed.

Lemma url_paths_total (env : Env) (values : list string) :
  (∀ v, v ∈ values → ∃ u, urlparse_path env v = Ok u) →
  ∃ paths, url_paths env values = Ok paths.
Proof.
  induction values as [|w values IH]; intros H; simpl; [by eexists|].
  destruct (H w) as [u ->]; [apply elem_of_cons; by left|]. simpl.
  destruct IH as [rest ->]; [intros v Hv; apply H, elem_of_cons; by right|].
  simpl. by eexists.
Qed.

Lemma url_paths_Raise_inv (env : Env) (values : list string) (e : exn) :
  url_paths env values = Raise e →
  ∃ v, v ∈ values ∧ urlparse_path env v = Raise e.
Proof.
  induction values as [|w values IH]; intros H; simpl in H; [done|].
  destruct (urlparse_path env w) as [u|e0] eqn:Hw; simpl in H.
  - destruct (url_paths env values) as [rest|e1]; simpl in H; [done|].
    injection H as ->. destruct (IH eq_refl) as (v & Hv & He).
    exists v. split; [apply elem_of_cons; by right | done].
  - injection H as ->. exists w. split; [apply elem_of_cons; by left | done].
Qed.

Lemma url_paths_raises (env : Env) (values : list string) (v : string) (e : exn) :
  v ∈ values → urlparse_path env v = Raise e →
  ∃ e', url_paths env values = Raise e'
        ∧ ∃ v', v' ∈ values ∧ urlparse_path env v' = Raise e'.
Proof.
  induction values as [|w values IH]; intros Hv He; [by apply elem_of_nil in Hv|].
  simpl. destruct (urlparse_path env w) as [u|e0] eqn:Hw; simpl.
  - apply elem_of_cons in Hv as [->|Hv]; [congruence|].
    destruct (IH Hv He) as (e' & -> & v' & Hv' & He'). simpl.
    exists e'. split; [done|]. exists v'. split; [apply elem_of_cons; by right | done].
  - exists e0. split; [done|]. exists w. split; [apply elem_of_cons; by left | done].
Qed.

(** C8 as stated fails: a document with an anchor whose [href] is
    [//[x] makes [urlparse] raise [ValueError], so [HTML.get_paths]
    returns no set for it. *)
Lemma HTML_get_paths_raises_on_rejected_value :
  let env := archive "<html>links</html>" (Ok malformed_link_page) in
  let f : FS.t := {[ ["start"] := File "<html>links</html>" ]} in
  link_value malformed_link_page "//[x"
  ∧ urlparse_path env "//[x" = Raise ValueError
  ∧ HTML_get_paths env f ["start"] = Raise ValueError.
Proof.
  intros env f. split; [|split; reflexivity].
  exists (Element "a" [("href", "//[x")] (Some "odd") [] None).
  split; [|split; [left; split; [by left | done] | done]].
  simpl. set_solver.
Qed.

(** C8, amended: on a file that reads and parses, the values
    [HTML.get_paths] hands to [urlparse] are those of the [href] of an
    anchor or link and of the [src] of a script or image that begin with
    ["/"].  When [urlparse] accepts each of them, [HTML.get_paths]
    returns a set; a path is in it exactly when it is the URL path of
    one of these values with its leading slashes stripped; values that
    do not begin with ["/"] (absolute URLs, fragments) contribute
    nothing, and no returned path begins with ["/"].  When [urlparse]
    rejects one of them, [HTML.get_paths] raises what [urlparse] raised
    on such a value. *)
Theorem HTML_get_paths_spec (env : Env) (f : FS.t) (file : path) (data : string) (doc : element) :
  FS.read_text f file = Ok data →
  fromstring env data = Ok doc →
  ((∀ v, link_value doc v → ∃ u, urlparse_path env v = Ok u) →
   ∃ paths : gset string,
     HTML_get_paths env f file = Ok paths
     ∧ (∀ p, p ∈ paths ↔
          ∃ v u, link_value doc v ∧ urlparse_path env v = Ok u
                 ∧ p = Str.lstrip "/" u)
     ∧ (∀ p, p ∈ paths → Str.startswith "/" p = false))
  ∧ (∀ v e, link_value doc v → urlparse_path env v = Raise e →
       ∃ e', HTML_get_paths env f file = Raise e'
             ∧ ∃ v', link_value doc v' ∧ urlparse_path env v' = Raise e').
Proof.
  intros Hread Hdoc. unfold HTML_get_paths. rewrite Hread. cbn [rbind].
  rewrite Hdoc. cbn [rbind]. unfold HTML_paths_of, attr_values.
  set (hrefs := selected_values doc [SelTagAttr "a" "href"; SelTagAttr "link" "href"] "href").
  set (srcs := selected_values doc [SelTagAttr "script" "src"; SelTagAttr "img" "src"] "src").
  assert (Hlink : ∀ v, link_value doc v ↔ v ∈ hrefs ∨ v ∈ srcs)
    by (intros v; apply link_value_selected).
  split.
  - intros Hall.
    destruct (url_paths_total env hrefs) as [href Hhref];
      [intros v Hv; apply Hall, Hlink; by left|].
    destruct (url_paths_total env srcs) as [src Hsrc];
      [intros v Hv; apply Hall, Hlink; by right|].
    rewrite Hhref, Hsrc. cbn [rbind]. eexists. split; [done|].
    apply url_paths_Ok in Hhref as [_ Hhref]. apply url_paths_Ok in Hsrc as [_ Hsrc].
    assert (Hmem : ∀ p, p ∈ (list_to_set href ∪ list_to_set src : gset string) ↔
              ∃ v u, link_value doc v ∧ urlparse_path env v = Ok u
                     ∧ p = Str.lstrip "/" u).
    { intros p. rewrite elem_of_union, !elem_of_list_to_set, Hhref, Hsrc. split.
      - intros [(v & u & Hv & Hu & ->)|(v & u & Hv & Hu & ->)];
          exists v, u; (split; [apply Hlink; auto | done]).
      - intros (v & u & Hv & Hu & ->). apply Hlink in Hv as [Hv|Hv]; eauto 10. }
    split; [done|].
    intros p Hp. apply Hmem in Hp as (v & u & _ & _ & ->).
    apply (lstrip_not_startswith "/").
  - intros v e Hv He. apply Hlink in Hv as [Hv|Hv].
    + destruct (url_paths_raises env hrefs v e Hv He) as (e' & -> & v' & Hv' & He').
      cbn [rbind]. exists e'. split; [done|]. exists v'.
      split; [apply Hlink; by left | done].
    + destruct (url_paths env hrefs) as [href|e1] eqn:Hhref; cbn [rbind].
      * destruct (url_paths_raises env srcs v e Hv He) as (e' & -> & v' & Hv' & He').
        cbn [rbind]. exists e'. split; [done|]. exists v'.
        split; [apply Hlink; by right | done].
      * exists e1. split; [done|].
        destruct (url_paths_Raise_inv env hrefs e1 Hhref) as (v' & Hv' & He').
        exists v'. split; [apply Hlink; by left | done].
Qed.

Lemma HTML_get_paths_spec_witness :
  let env := archive "<html>links</html>" (Ok linked_page) in
  let f : FS.t := {[ ["start"] := File "<html>links</html>" ]} in
  ∃ paths : gset string,
    HTML_get_paths env f ["start"] = Ok paths
    ∧ (∀ p, p ∈ paths ↔
         ∃ v u, link_value linked_page v ∧ urlparse_path env v = Ok u
                ∧ p = Str.lstrip "/" u)
    ∧ (∀ p, p ∈ paths → Str.startswith "/" p = false).
Proof.
  intros env f.
  destruct (HTML_get_paths_spec env f ["start"] "<html>links</html>" linked_page)
    as [Hok _]; [reflexivity | reflexivity |].
  apply Hok. intros v (e & He & Hv & Hs).
  assert (Hin : e ∈ iter linked_page) by exact He. clear He.
  simpl in Hin. rewrite !elem_of_cons in Hin.
  destruct Hin as [->|[->|[->|[->|[->|[->|[->|[->|[->|[->|Hin]]]]]]]]]];
    [..|by apply elem_of_nil in Hin];
    simpl in Hv;
    destruct Hv as [[_ [= <-]]|[_ [= <-]]]; try discriminate; by eexists.
Defined.

(** ** Cross-reference extraction *)

(** The characters of a text are a division of its bytes. *)
Lemma concat_singletons {A : Type} (l : list A) :
  List.concat (map (fun c => [c]) l) = l.
Proof. induction l as [|x l IH]; simpl; congruence. Qed.

Lemma characters_aux_concat (bs : list ascii) :
  (fst (characters_aux bs) ++ List.concat (snd (characters_aux bs)))%list = bs.
Proof.
  induction bs as [|b bs IH]; [done|]. simpl.
  destruct (characters_aux bs) as [conts chs]. simpl in IH.
  destruct (is_continuation b); simpl; [by rewrite IH|].
  rewrite concat_app, concat_singletons, app_assoc.
  by rewrite take_drop, IH.
Qed.

Lemma concat_characters (bs : list ascii) : List.concat (characters bs) = bs.
Proof.
  unfold characters. pose proof (characters_aux_concat bs) as H.
  destruct (characters_aux bs) as [conts chs]. simpl in H.
  by rewrite concat_app, concat_singletons.
Qed.

Lemma well_grouped_single (c : ascii) : well_grouped [c].
Proof. exists c, []. repeat split; [constructor | simpl; lia]. Qed.

Lemma characters_aux_grouped (bs : list ascii) :
  Forall (fun c => is_continuation c = true) (fst (characters_aux bs))
  ∧ Forall well_grouped (snd (characters_aux bs)).
Proof.
  induction bs as [|b bs [IHc IHg]]; [by split; constructor|]. simpl.
  destruct (characters_aux bs) as [conts chs]. simpl in IHc, IHg.
  destruct (is_continuation b) eqn:Hb; simpl.
  - split; [by constructor | done].
  - split; [constructor|]. constructor.
    + exists b, (take (announced b) conts). split; [done|]. split.
      * by apply Forall_take.
      * rewrite length_take. lia.
    + apply Forall_app. split; [|done].
      apply Forall_forall. intros g Hg. change map with (@fmap list _) in Hg.
      apply list_elem_of_fmap in Hg as (c & -> & _). apply well_grouped_single.
Qed.

Lemma characters_grouped (bs : list ascii) : Forall well_grouped (characters bs).
Proof.
  unfold characters. pose proof (characters_aux_grouped bs) as [_ Hg].
  destruct (characters_aux bs) as [conts chs]. simpl in Hg.
  apply Forall_app. split; [|done].
  apply Forall_forall. intros g Hin. change map with (@fmap list _) in Hin.
  apply list_elem_of_fmap in Hin as (c & -> & _). apply well_grouped_single.
Qed.

(** In an ASCII text every byte is a character. *)
Lemma characters_ascii (bs : list ascii) :
  Forall (fun c => is_ascii c = true) bs →
  characters bs = map (fun c => [c]) bs.
Proof.
  intros H. unfold characters.
  assert (characters_aux bs = ([], map (fun c => [c]) bs)) as ->; [|done].
  induction H as [|b bs Hb _ IH]; [done|]. simpl. rewrite IH.
  unfold is_ascii in Hb. apply Nat.ltb_lt in Hb.
  unfold is_continuation, announced.
  destruct (Nat.leb_spec 128 (nat_of_ascii b)) as [?|_]; [lia|].
  destruct (Nat.ltb_spec (nat_of_ascii b) 192) as [_|?]; [|lia].
  done.
Qed.

Lemma is_char_spec (c : ascii) (ch : list ascii) : is_char c ch = true ↔ ch = [c].
Proof.
  destruct ch as [|d [|e ch]]; simpl; [done| |done].
  destruct (Ascii.eqb_spec d c) as [->|Hne]; split; try done.
  intros [= ->]. done.
Qed.

Lemma findall_from_skip (keep : list ascii → bool) (k : nat) (cs : list (list ascii)) :
  findall_from keep k cs = findall_from keep 0 (drop k cs).
Proof.
  revert k. induction cs as [|c cs IH]; intros [|k]; try reflexivity.
  simpl. apply IH.
Qed.

Lemma take_while_split {A : Type} (keep : A → bool) (cs : list A) :
  ∃ post, cs = (take_while keep cs ++ post)%list
          ∧ Forall (fun c => keep c = true) (take_while keep cs)
          ∧ match post with [] => True | c :: _ => keep c = false end.
Proof.
  induction cs as [|c cs (post & Hcs & Hall & Hpost)]; simpl.
  - exists []. by repeat split.
  - destruct (keep c) eqn:Hc.
    + exists post. repeat split; [simpl; congruence | by constructor | done].
    + exists (c :: cs). by repeat split.
Qed.

Lemma take_while_all {A : Type} (keep : A → bool) (m post : list A) :
  Forall (fun c => keep c = true) m →
  match post with [] => True | c :: _ => keep c = false end →
  take_while keep (m ++ post) = m.
Proof.
  intros Hm Hpost. induction Hm as [|c m Hc _ IH]; simpl.
  - destruct post as [|c post]; [done|]. simpl. by rewrite Hpost.
  - by rewrite Hc, IH.
Qed.

Lemma take_while_stops {A : Type} (keep : A → bool) (a : list A) (x : A) (b : list A) :
  keep x = false →
  (List.length (take_while keep (a ++ x :: b)) ≤ List.length a)%nat.
Proof.
  intros Hx. induction a as [|c a IH]; simpl.
  - by rewrite Hx.
  - destruct (keep c); simpl; lia.
Qed.

Lemma match_here_Some (keep : list ascii → bool) (cs run : list (list ascii)) :
  match_here keep cs = Some run ↔
  ∃ rest, cs = ["["%char] :: ["["%char] :: rest
          ∧ take_while keep rest = run ∧ run ≠ [].
Proof.
  unfold match_here. destruct cs as [|c1 [|c2 rest]].
  - split; [done | by intros (? & ? & _)].
  - split; [done | by intros (? & ? & _)].
  - destruct (is_char "[" c1) eqn:H1; [destruct (is_char "[" c2) eqn:H2|]; simpl.
    + apply is_char_spec in H1 as ->. apply is_char_spec in H2 as ->.
      destruct (take_while keep rest) as [|r run'] eqn:Hrun.
      * split; [done|]. intros (rest' & [= <-] & Hr & Hne). congruence.
      * split.
        -- intros [= <-]. by exists rest.
        -- intros (rest' & [= <-] & Hr & Hne). congruence.
    + split; [done|]. intros (rest' & [= ? ? ?] & _). subst c2. done.
    + split; [done|]. intros (rest' & [= ? ? ?] & _). subst c1. done.
Qed.

Lemma link_at_skip (keep : list ascii → bool) (k : nat) (cs m : list (list ascii)) :
  link_at keep (drop k cs) m → link_at keep cs m.
Proof.
  intros (pre & post & Hcs & H). exists (take k cs ++ pre)%list, post.
  split; [|done]. rewrite <- app_assoc, <- Hcs. by rewrite take_drop.
Qed.

(** Every group [findall] returns is an occurrence. *)
Lemma findall_sound (keep : list ascii → bool) (n : nat) (cs m : list (list ascii)) :
  (List.length cs ≤ n)%nat →
  m ∈ findall_from keep 0 cs → link_at keep cs m.
Proof.
  revert cs. induction n as [|n IH]; intros [|c cs] Hlen Hm;
    try (by apply elem_of_nil in Hm); simpl in Hlen; [lia|].
  cbn [findall_from] in Hm.
  destruct (match_here keep (c :: cs)) as [run|] eqn:Hhere.
  - apply match_here_Some in Hhere as (rest & [= -> ->] & Hrun & Hne).
    apply elem_of_cons in Hm as [->|Hm].
    + destruct (take_while_split keep rest) as (post & Hrest & Hall & Hpost).
      exists [], post. rewrite Hrun in Hrest, Hall. simpl. by rewrite <- Hrest.
    + rewrite findall_from_skip in Hm.
      apply (link_at_skip keep (S (S (List.length run)))). simpl.
      apply IH; [|done]. simpl. rewrite length_drop. simpl in Hlen. lia.
  - apply (link_at_skip keep 1). simpl. rewrite drop_0. apply IH; [lia|done].
Qed.

(** Every occurrence is among the groups [findall] returns. *)
Lemma findall_complete (keep : list ascii → bool) (n : nat) (cs m : list (list ascii)) :
  keep ["["%char] = false →
  (List.length cs ≤ n)%nat →
  link_at keep cs m → m ∈ findall_from keep 0 cs.
Proof.
  intros Hbr. revert cs. induction n as [|n IH];
    intros cs Hlen (pre & post & Hcs & Hne & Hall & Hpost).
  { destruct cs; [|simpl in Hlen; lia]. by destruct pre. }
  destruct cs as [|c cs]; [by destruct pre|].
  cbn [findall_from].
  destruct (match_here keep (c :: cs)) as [run|] eqn:Hhere.
  - apply match_here_Some in Hhere as (rest & [= -> ->] & Hrun & Hrne).
    destruct pre as [|x [|y pre]]; simpl in Hcs.
    + injection Hcs as ->. rewrite take_while_all in Hrun by done.
      subst run. apply elem_of_cons. by left.
    + injection Hcs as _ ->. simpl in Hrun. rewrite Hbr in Hrun. congruence.
    + injection Hcs as _ _ ->.
      apply elem_of_cons. right. rewrite findall_from_skip. simpl.
      pose proof (take_while_stops keep pre ["["%char]
                    (["["%char] :: m ++ post)%list Hbr) as Hle.
      rewrite Hrun in Hle.
      apply IH.
      * rewrite length_drop. simpl in Hlen. lia.
      * exists (drop (List.length run) pre), post.
        split; [|done]. by rewrite drop_app_le.
  - destruct pre as [|x pre]; simpl in Hcs.
    + injection Hcs as -> ->.
      assert (match_here keep (["["%char] :: ["["%char] :: m ++ post)%list = Some m)
        as Hm; [|congruence].
      apply match_here_Some. exists (m ++ post)%list.
      split; [done|]. split; [by apply take_while_all | done].
    + injection Hcs as -> ->. apply IH; [simpl in Hlen; lia|].
      by exists pre, post.
Qed.

Lemma in_class_bracket (db : string → bool) : in_class db ["["%char] = false.
Proof. reflexivity. Qed.

Lemma elem_of_findall (db : string → bool) (data : string) (s : string) :
  s ∈ findall (in_class db) data ↔
  ∃ m, link_at (in_class db) (characters (Str.chars data)) m
       ∧ s = text_of_characters m.
Proof.
  unfold findall. change map with (@fmap list _). rewrite list_elem_of_fmap. split.
  - intros (m & -> & Hm). exists m. split; [|done].
    by apply (findall_sound (in_class db) (List.length (characters (Str.chars data)))).
  - intros (m & Hm & ->). exists m. split; [done|].
    by apply (findall_complete (in_class db)
                (List.length (characters (Str.chars data))));
      [apply in_class_bracket | |].
Qed.

Lemma in_class_chars (db : string → bool) (ch : list ascii) :
  in_class db ch = true ↔
  isalnum db ch = true ∨ ch = ["_"%char] ∨ ch = ["-"%char] ∨ ch = ["/"%char]
  ∨ ch = [":"%char].
Proof.
  unfold in_class, is_word.
  rewrite !orb_true_iff, !is_char_spec. tauto.
Qed.

Lemma elem_of_bool_filter {A : Type} (g : A → bool) (l : list A) (x : A) :
  x ∈ List.filter g l ↔ x ∈ l ∧ g x = true.
Proof. rewrite !list_elem_of_In. apply filter_In. Qed.

Lemma elem_of_MD_links (db : string → bool) (data p : string) :
  p ∈ MD_links db data ↔
  ∃ m, link_at (in_class db) (characters (Str.chars data)) m
       ∧ Str.startswith "http" (text_of_characters m) = false
       ∧ p = Str.replace ":" "/" (text_of_characters m).
Proof.
  unfold MD_links. change map with (@fmap list _).
  rewrite list_elem_of_fmap. split.
  - intros (s & -> & Hs). apply elem_of_bool_filter in Hs as [Hs Hhttp].
    apply elem_of_findall in Hs as (m & Hm & ->).
    exists m. split; [done|]. split; [|done]. by apply negb_true_iff.
  - intros (m & Hm & Hhttp & ->). exists (text_of_characters m). split; [done|].
    apply elem_of_bool_filter. split.
    + apply elem_of_findall. by exists m.
    + by apply negb_true_iff.
Qed.

(** C7 as stated fails: a name with an underscore is matched whole,
    while the class of the specification (letters, digits, [-], [/],
    [:]) would stop the match before the underscore. *)
Lemma MD_links_keeps_underscore :
  MD_links latin_letter "[[dict:terms:exit_code]]" = ["dict/terms/exit_code"]
  ∧ MD_links_as_specified latin_letter "[[dict:terms:exit_code]]" = ["dict/terms/exit"]
  ∧ MD_links latin_letter "[[dict:terms:exit_code]]"
    ≠ MD_links_as_specified latin_letter "[[dict:terms:exit_code]]".
Proof. repeat split; done. Qed.

(** C7, amended: the pattern works on the characters of the text (in
    an ASCII text, its bytes); its class is the alphanumeric characters
    (the ASCII letters and digits, and beyond ASCII the characters the
    Unicode database calls alphanumeric), the underscore, [-], [/] and
    [:]; [MD.get_paths]
    applies [MD_links] to the text of the file; a path is returned
    exactly when the text has an occurrence of [[[] followed by a
    longest non-empty run [m] of such characters, [m] does not begin
    with ["http"], and the path is [m] with [:] replaced by [/].
    [[[commands:builtin:echo]]] gives [commands/builtin/echo],
    [[[http://example.com]]] gives nothing and, where the database knows
    the letters, a link with letters beyond ASCII is taken whole. *)
Theorem MD_get_paths_rule :
  (∀ db ch, in_class db ch = true ↔
        isalnum db ch = true ∨ ch = ["_"%char] ∨ ch = ["-"%char] ∨ ch = ["/"%char]
        ∨ ch = [":"%char])
  ∧ (∀ db c, is_ascii c = true → isalnum db [c] = is_alnum c)
  ∧ (∀ db ch, (∀ c, ch = [c] → is_ascii c = false) →
       isalnum db ch = db (Str.of_chars ch))
  ∧ (∀ bs, List.concat (characters bs) = bs ∧ Forall well_grouped (characters bs))
  ∧ (∀ bs, Forall (fun c => is_ascii c = true) bs →
       characters bs = map (fun c => [c]) bs)
  ∧ (∀ (env : Env) (f : FS.t) (file : path) (data : string),
       FS.read_text f file = Ok data →
       MD_get_paths env f file = Ok (MD_links (unicode_alnum env) data))
  ∧ (∀ (db : string → bool) (data p : string),
       p ∈ MD_links db data ↔
       ∃ m, link_at (in_class db) (characters (Str.chars data)) m
            ∧ Str.startswith "http" (text_of_characters m) = false
            ∧ p = Str.replace ":" "/" (text_of_characters m))
  ∧ (∀ db, MD_links db "[[commands:builtin:echo]]" = ["commands/builtin/echo"])
  ∧ (∀ db, MD_links db "[[http://example.com]]" = [])
  ∧ MD_links latin_letter "[[café:übung]]" = ["café/übung"].
Proof.
  split; [exact in_class_chars|].
  split; [intros db c Hc; unfold isalnum; by rewrite Hc|].
  split.
  { intros db ch Hch. unfold isalnum. destruct ch as [|c [|d ch]]; try done.
    by rewrite (Hch c eq_refl). }
  split; [intros bs; split; [apply concat_characters | apply characters_grouped]|].
  split; [exact characters_ascii|].
  split; [intros env f file data Hread; unfold MD_get_paths; by rewrite Hread|].
  split; [exact elem_of_MD_links|].
  repeat split.
Qed.

Lemma MD_get_paths_rule_witness :
  let f : FS.t := {[ ["start.md"] := File "see [[commands:builtin:echo]], [[http://example.com]]" ]} in
  MD_get_paths offline f ["start.md"] = Ok ["commands/builtin/echo"].
Proof.
  intros f.
  destruct MD_get_paths_rule as (_ & _ & _ & _ & _ & Hfile & _).
  apply (Hfile offline f ["start.md"] "see [[commands:builtin:echo]], [[http://example.com]]").
  reflexivity.
Defined.

(** ** Traces *)

Lemma weight_app (w : event → nat) (l1 l2 : list event) :
  weight w (l1 ++ l2) = (weight w l1 + weight w l2)%nat.
Proof. unfold weight. by rewrite map_app, list_sum_app. Qed.

Section Emits.

Variable w : event → nat.

Lemma emits_ret {A} (a : A) : emits w 0 (ret a).
Proof. intros st. exists []. simpl. by rewrite app_nil_r. Qed.

Lemma emits_raise {A} (n : nat) (e : exn) : emits w n (@raise A e).
Proof.
  intros st. exists []. simpl. rewrite app_nil_r.
  repeat split; [unfold weight; simpl; lia | done].
Qed.

Lemma emits_lift {A} (r : result A) : emits w 0 (lift r).
Proof. intros st. exists []. simpl. by rewrite app_nil_r. Qed.

Lemma emits_get_fs : emits w 0 get_fs.
Proof. intros st. exists []. simpl. by rewrite app_nil_r. Qed.

Lemma emits_put_fs (f : FS.t) : emits w 0 (put_fs f).
Proof. intros st. exists []. simpl. by rewrite app_nil_r. Qed.

Lemma emits_emit (ev : event) : emits w (w ev) (emit ev).
Proof.
  intros st. exists [ev]. simpl. unfold weight. simpl.
  repeat split; [lia | intros; lia].
Qed.

Lemma emits_bind {A B} (n k : nat) (m : M A) (g : A → M B) :
  emits w n m → (∀ a, emits w k (g a)) → emits w (n + k) (bind m g).
Proof.
  intros Hm Hg st. unfold bind.
  destruct (Hm st) as (evs1 & Ht1 & Hle1 & Hok1).
  destruct (m st) as [[a|e] st1]; simpl in *.
  - destruct (Hg a st1) as (evs2 & Ht2 & Hle2 & Hok2).
    exists (evs1 ++ evs2)%list. rewrite Ht2, Ht1, <- app_assoc, weight_app.
    specialize (Hok1 a eq_refl).
    repeat split; [lia|]. intros b Hb. rewrite (Hok2 b Hb). lia.
  - exists evs1. repeat split; [done | lia | done].
Qed.

Lemma emits_for_each {A} (l : list A) (body : A → M unit) :
  (∀ x, emits w 0 (body x)) → emits w 0 (for_each l body).
Proof.
  intros Hbody. induction l as [|x l IH]; simpl.
  - apply emits_ret.
  - apply (emits_bind 0 0); [apply Hbody | intros _; apply IH].
Qed.

Lemma emits_repeat_pass (n k : nat) (pass : M unit) :
  emits w k pass → emits w (n * k) (repeat_pass n pass).
Proof.
  intros Hpass. induction n as [|n IH]; simpl.
  - apply emits_ret.
  - apply (emits_bind k (n * k)); [done | by intros _].
Qed.

End Emits.

(** The steps that prove [emits w 0] of a computation built from the
    primitives. *)
Ltac quiet_step :=
  first
    [ apply emits_ret | apply emits_raise | apply emits_lift
    | apply emits_get_fs | apply emits_put_fs
    | apply (emits_bind _ 0 0)
    | apply emits_for_each
    | match goal with
      | |- emits _ _ (match ?x with _ => _ end) => destruct x
      | |- emits _ _ (if ?b then _ else _) => destruct b
      | |- ∀ _, _ => intro
      end ].

Section Quiet.

Variable env : Env.
Variable w : event → nat.
Hypothesis quiet : ∀ ev, export_event ev = true → w ev = 0%nat.

Lemma emits_quiet (ev : event) : export_event ev = true → emits w 0 (emit ev).
Proof. intros H. rewrite <- (quiet ev H). apply emits_emit. Qed.

Lemma emits_logging (lvl : level) (msg : logmsg) :
  export_event (Log lvl msg) = true → emits w 0 (logging lvl msg).
Proof. apply emits_quiet. Qed.

Lemma emits_get_url (p : string) (sfx : option string) :
  emits w 0 (get_url env p sfx).
Proof.
  unfold get_url.
  repeat first [ quiet_step | by apply emits_quiet | by apply emits_logging ].
Qed.

Lemma emits_get_response (url : string) : emits w 0 (get_response env url).
Proof.
  unfold get_response.
  repeat first [ quiet_step | by apply emits_quiet | by apply emits_logging ].
Qed.

Lemma emits_rename_if_collision (file : path) :
  emits w 0 (rename_if_collision file).
Proof.
  unfold rename_if_collision.
  repeat first [ quiet_step | by apply emits_quiet | by apply emits_logging ].
Qed.

Lemma emits_write (file : path) (r : response) : emits w 0 (write file r).
Proof.
  unfold write.
  repeat first [ apply emits_rename_if_collision | quiet_step ].
Qed.

Lemma emits_export_path (p : string) (us fsfx : option string) :
  emits w 0 (export_path env p us fsfx).
Proof.
  unfold export_path.
  repeat first [ apply emits_get_url | apply emits_get_response
               | apply emits_write | quiet_step
               | by apply emits_quiet | by apply emits_logging ].
Qed.

End Quiet.

(** ** Pass counts *)

Ltac emit_step :=
  match goal with
  | |- emits ?w _ (emit ?ev) => exact (emits_emit w ev)
  | |- emits ?w _ (logging ?l ?m) => exact (emits_emit w (Log l m))
  end.

Lemma md_pass_quiet (ev : event) : export_event ev = true → md_pass ev = 0%nat.
Proof. by destruct ev. Qed.

Lemma html_pass_quiet (ev : event) : export_event ev = true → html_pass ev = 0%nat.
Proof. destruct ev as [lvl msg| | |]; try done. by destruct lvl, msg. Qed.

(** A pass of the content kind scans once. *)
Lemma emits_MD_export (env : Env) : emits md_pass 1 (MD_export env).
Proof.
  unfold MD_export.
  apply (emits_bind _ 1 0); [emit_step|]. intros _.
  repeat first [ apply (emits_export_path env md_pass md_pass_quiet)
               | emit_step | quiet_step ].
Qed.

(** A pass of the structural kind logs its frontier once. *)
Lemma emits_HTML_export (env : Env) : emits html_pass 1 (HTML_export env).
Proof.
  unfold HTML_export.
  apply (emits_bind _ 0 1); [emit_step|]. intros _.
  apply (emits_bind _ 0 1); [apply emits_get_fs|]. intros f.
  apply (emits_bind _ 0 1); [apply emits_lift|]. intros unexported.
  apply (emits_bind _ 1 0); [emit_step|]. intros _.
  repeat first [ apply (emits_export_path env html_pass html_pass_quiet)
               | emit_step | quiet_step ].
Qed.

Lemma emits_comment_out_menu_tools : emits html_pass 0 HTML_comment_out_menu_tools.
Proof.
  unfold HTML_comment_out_menu_tools.
  repeat first [ emit_step | quiet_step ].
Qed.

(** C5 as stated fails for the structural kind: from an empty tree, with
    a start page that has no links, the frontier is empty at the first
    pass and [HTML.export_all] still runs five passes, each logging an
    empty frontier; it does not stop at the first empty frontier. *)
Lemma HTML_export_all_runs_five_passes_on_empty_frontier :
  let env := archive "<html>bash</html>" (Ok plain_page) in
  let run := HTML_export_all env [TheClass] empty_state in
  fst run = Ok tt
  ∧ logged_frontiers (trace (snd run)) = [[]; []; []; []; []].
Proof. vm_compute. split; reflexivity. Qed.

(** C5, amended: [MD.export_all] with no argument only appends to the
    trace and, when it returns, has run exactly two passes (never more
    than two); [HTML.export_all] with its one argument, when it returns,
    has run exactly five passes (never more than five), whatever the
    frontiers were. *)
Theorem pass_counts (env : Env) :
  emits md_pass 2 (MD_export_all env [])
  ∧ ∀ self, emits html_pass 5 (HTML_export_all env [self]).
Proof.
  split.
  - unfold MD_export_all.
    apply (emits_bind _ 0 2);
      [apply (emits_export_path env md_pass md_pass_quiet)|]. intros _.
    apply (emits_bind _ 1 1); [apply emits_MD_export|]. intros _.
    apply emits_MD_export.
  - intros self. unfold HTML_export_all.
    apply (emits_bind _ 0 5);
      [apply (emits_export_path env html_pass html_pass_quiet)|].
    intros [target|]; [|apply emits_raise].
    apply (emits_bind _ 0 5); [apply emits_get_fs|]. intros f.
    apply (emits_bind _ 0 5); [apply emits_lift|]. intros f'.
    apply (emits_bind _ 0 5); [apply emits_put_fs|]. intros _.
    apply (emits_bind _ 5 0);
      [apply (emits_repeat_pass html_pass 5 1), emits_HTML_export|]. intros _.
    destruct self; [apply emits_comment_out_menu_tools | apply emits_raise ..].
Qed.

Lemma pass_counts_witness :
  let env := archive "<html>bash</html>" (Ok plain_page) in
  ∃ evs, trace (snd (HTML_export_all env [TheClass] empty_state)) = evs
         ∧ weight html_pass evs = 5%nat.
Proof.
  intros env.
  destruct (pass_counts env) as [_ Hhtml].
  destruct (Hhtml TheClass empty_state) as (evs & Htrace & _ & Hok).
  exists evs. split; [exact Htrace|].
  apply (Hok tt). vm_compute. reflexivity.
Defined.

(** ** Dicts *)

Lemma keys_dict_set {V} (k : string) (v : V) (d : list (string * V)) (x : string) :
  x ∈ keys (dict_set k v d) ↔ x = k ∨ x ∈ keys d.
Proof.
  unfold keys. induction d as [|[k' v'] d IH]; simpl.
  - rewrite list_elem_of_singleton, elem_of_nil. tauto.
  - destruct (String.eqb_spec k k') as [->|Hne]; simpl.
    + rewrite !elem_of_cons. tauto.
    + rewrite !elem_of_cons, IH. tauto.
Qed.

Lemma keys_fold {V} (items d : list (string * V)) (x : string) :
  x ∈ keys (fold_left (fun d kv => dict_set (fst kv) (snd kv) d) items d)
  ↔ x ∈ map fst items ∨ x ∈ keys d.
Proof.
  revert d. induction items as [|[k v] items IH]; intros d; simpl.
  - rewrite elem_of_nil. tauto.
  - rewrite IH, keys_dict_set, elem_of_cons. tauto.
Qed.

(** The keys of a dict comprehension are the keys of its items. *)
Lemma keys_dict_of {V} (items : list (string * V)) (x : string) :
  x ∈ keys (dict_of items) ↔ x ∈ map fst items.
Proof.
  unfold dict_of. rewrite keys_fold.
  change (keys (@nil (string * V))) with (@nil string).
  rewrite elem_of_nil. tauto.
Qed.

Lemma elem_of_map_fst {V} (items : list (string * V)) (x : string) :
  x ∈ map fst items ↔ ∃ v, (x, v) ∈ items.
Proof.
  change map with (@fmap list _). rewrite list_elem_of_fmap. split.
  - intros ([k v] & -> & H). by exists v.
  - intros (v & H). by exists (x, v).
Qed.

Lemma no_keys_nil {V} (d : list (string * V)) :
  (∀ x, x ∉ keys d) → d = [].
Proof.
  destruct d as [|[k v] d]; [done|]. intros H.
  destruct (H k). unfold keys. simpl. apply elem_of_cons. by left.
Qed.

(** ** Frontiers *)

Lemma MD_items_spec (env : Env) (f : FS.t) (files : list path) (items : list (string * path)) :
  MD_items env f files = Ok items →
  ∀ p file, (p, file) ∈ items ↔
    file ∈ files
    ∧ ∃ paths, MD_get_paths env f file = Ok paths ∧ p ∈ paths
               ∧ FS.exists_ f (Pathlib.Path (p ++ ".md")) = false.
Proof.
  revert items. induction files as [|file0 files IH]; intros items; simpl.
  - intros [= <-] p file. rewrite !elem_of_nil. tauto.
  - destruct (MD_get_paths env f file0) as [paths0|] eqn:Hpaths; [|done]. simpl.
    destruct (MD_items env f files) as [rest|]; [|done]. simpl.
    intros [= <-] p file. rewrite elem_of_app, elem_of_cons, (IH rest eq_refl).
    change map with (@fmap list _). rewrite list_elem_of_fmap. split.
    + intros [(q & [= -> ->] & Hq)|[Hfile Hrest]]; [|tauto].
      apply elem_of_bool_filter in Hq as [Hq Hex]. apply negb_true_iff in Hex.
      split; [by left|]. by exists paths0.
    + intros [[->|Hfile] (paths & Hp & Hin & Hex)]; [left|right; eauto].
      rewrite Hpaths in Hp. injection Hp as <-.
      exists p. split; [done|]. apply elem_of_bool_filter.
      split; [done|]. by apply negb_true_iff.
Qed.

Lemma HTML_items_spec (env : Env) (f : FS.t) (files : list path)
    (items : list (string * path)) :
  HTML_items env f files = Ok items →
  ∀ p file, (p, file) ∈ items ↔
    file ∈ files
    ∧ ∃ paths : gset string,
        HTML_get_paths env f file = Ok paths ∧ p ∈ paths
        ∧ FS.exists_ f (Pathlib.Path p) = false
        ∧ Str.startswith "_export" p = false.
Proof.
  revert items. induction files as [|file0 files IH]; intros items; simpl.
  - intros [= <-] p file. rewrite !elem_of_nil. tauto.
  - destruct (HTML_get_paths env f file0) as [paths0|] eqn:Hpaths; [|done]. simpl.
    destruct (HTML_items env f files) as [rest|]; [|done]. simpl.
    intros [= <-] p file. rewrite elem_of_app, elem_of_cons, (IH rest eq_refl).
    change map with (@fmap list _). rewrite list_elem_of_fmap. split.
    + intros [(q & [= -> ->] & Hq)|[Hfile Hrest]]; [|tauto].
      apply elem_of_bool_filter in Hq as [Hq Hex].
      apply andb_true_iff in Hex as [Hex Hout].
      apply negb_true_iff in Hex, Hout. apply elem_of_elements in Hq.
      split; [by left|]. by exists paths0.
    + intros [[->|Hfile] (paths & Hp & Hin & Hex & Hout)]; [left|right; eauto 6].
      rewrite Hpaths in Hp. injection Hp as <-.
      exists p. split; [done|]. apply elem_of_bool_filter.
      split; [by apply elem_of_elements|]. by rewrite Hex, Hout.
Qed.

(** The frontier of a pass of the content kind. *)
Lemma MD_frontier_spec (env : Env) (f : FS.t) (d : list (string * path)) (p : string) :
  MD_unexported env f = Ok d →
  (p ∈ keys d ↔
   ∃ file paths, file ∈ FS.rglob f "*.md"
                 ∧ MD_get_paths env f file = Ok paths ∧ p ∈ paths
                 ∧ FS.exists_ f (Pathlib.Path (p ++ ".md")) = false).
Proof.
  unfold MD_unexported.
  destruct (MD_items env f (FS.rglob f "*.md")) as [items|] eqn:Hitems; [|done].
  simpl. intros [= <-]. rewrite keys_dict_of, elem_of_map_fst.
  split.
  - intros (file & H). apply (MD_items_spec _ _ _ _ Hitems) in H as (? & paths & ?).
    by exists file, paths.
  - intros (file & paths & Hfile & H). exists file.
    apply (MD_items_spec _ _ _ _ Hitems). eauto.
Qed.

(** The frontier of a pass of the structural kind. *)
Lemma HTML_frontier_spec (env : Env) (f : FS.t) (d : list (string * path)) (p : string) :
  HTML_unexported env f = Ok d →
  (p ∈ keys d ↔
   ∃ file (paths : gset string),
     file ∈ HTML_file_paths f
     ∧ HTML_get_paths env f file = Ok paths ∧ p ∈ paths
     ∧ FS.exists_ f (Pathlib.Path p) = false
     ∧ Str.startswith "_export" p = false).
Proof.
  unfold HTML_unexported.
  destruct (HTML_items env f (HTML_file_paths f)) as [items|] eqn:Hitems; [|done].
  simpl. intros [= <-]. rewrite keys_dict_of, elem_of_map_fst.
  split.
  - intros (file & H). apply (HTML_items_spec _ _ _ _ Hitems) in H as (? & paths & ?).
    by exists file, paths.
  - intros (file & paths & Hfile & H). exists file.
    apply (HTML_items_spec _ _ _ _ Hitems). eauto.
Qed.

(** A pass over an empty frontier changes nothing and requests nothing. *)
Lemma MD_export_empty (env : Env) (st : state) :
  MD_unexported env (fs st) = Ok [] →
  MD_export env st
  = (Ok tt, State (fs st) (trace st ++ [Scan "*.md"; Log WARNING MsgNoItems])).
Proof.
  intros H. unfold MD_export, bind, emit, get_fs, lift, logging, emit. simpl.
  rewrite H. simpl. by rewrite <- app_assoc.
Qed.

Lemma HTML_export_empty (env : Env) (st : state) :
  HTML_unexported env (fs st) = Ok [] →
  HTML_export env st
  = (Ok tt, State (fs st) (trace st ++ [Scan "*"; Log INFO (MsgWillExport [])])).
Proof.
  intros H. unfold HTML_export, bind, emit, get_fs, lift, logging, emit. simpl.
  rewrite H. simpl. by rewrite <- app_assoc.
Qed.

(** C2 as stated fails: the dead-link lists are not consulted.  A path
    of [MD.DEAD_LINKS] that a page links to and that is not on disk is
    in the frontier of the content pass, and the pass materializes it
    when the archive has it; likewise a path of [HTML.DEAD_LINKS] is in
    the frontier of the structural pass. *)
Lemma dead_links_enter_frontier :
  let env := archive "<html>edit</html>" (Ok edit_view) in
  let env' := archive "<html>dict</html>" (Ok dead_link_page) in
  "commands/builtin/true" ∈ MD_DEAD_LINKS
  ∧ MD_unexported env dead_link_tree = Ok [("commands/builtin/true", ["start.md"])]
  ∧ fs (snd (MD_export env (State dead_link_tree [])))
      !! ["commands"; "builtin"; "true.md"]
    = Some (File "[[commands:builtin:echo]]")
  ∧ "dict/start" ∈ HTML_DEAD_LINKS
  ∧ HTML_unexported env' dead_link_html_tree = Ok [("dict/start", ["start"])].
Proof.
  intros env env'. split; [unfold MD_DEAD_LINKS; set_solver|].
  split; [vm_compute; reflexivity|].
  split; [vm_compute; reflexivity|].
  split; [unfold HTML_DEAD_LINKS; set_solver|].
  vm_compute; reflexivity.
Qed.

(** C2, amended: the frontier of a pass is made of the paths that some
    scanned file refers to and that do not exist (for the content kind
    with [.md] appended; for the structural kind also not beginning with
    [_export]); membership in a dead-link list plays no part.  When
    every path referred to exists (or, structural kind, begins with
    [_export]), the frontier is empty and the pass leaves the tree as it
    is and requests nothing, so the next frontier is empty too. *)
Theorem frontier_rule (env : Env) :
  (∀ (f : FS.t) (d : list (string * path)) (p : string),
     MD_unexported env f = Ok d →
     (p ∈ keys d ↔
      ∃ file paths, file ∈ FS.rglob f "*.md"
                    ∧ MD_get_paths env f file = Ok paths ∧ p ∈ paths
                    ∧ FS.exists_ f (Pathlib.Path (p ++ ".md")) = false))
  ∧ (∀ (f : FS.t) (d : list (string * path)) (p : string),
       HTML_unexported env f = Ok d →
       (p ∈ keys d ↔
        ∃ file (paths : gset string),
          file ∈ HTML_file_paths f
          ∧ HTML_get_paths env f file = Ok paths ∧ p ∈ paths
          ∧ FS.exists_ f (Pathlib.Path p) = false
          ∧ Str.startswith "_export" p = false))
  ∧ (∀ (st : state) (d : list (string * path)),
       MD_unexported env (fs st) = Ok d →
       (∀ file paths p, file ∈ FS.rglob (fs st) "*.md" →
          MD_get_paths env (fs st) file = Ok paths → p ∈ paths →
          FS.exists_ (fs st) (Pathlib.Path (p ++ ".md")) = true) →
       d = []
       ∧ MD_export env st
         = (Ok tt, State (fs st) (trace st ++ [Scan "*.md"; Log WARNING MsgNoItems])))
  ∧ (∀ (st : state) (d : list (string * path)),
       HTML_unexported env (fs st) = Ok d →
       (∀ file (paths : gset string) p, file ∈ HTML_file_paths (fs st) →
          HTML_get_paths env (fs st) file = Ok paths → p ∈ paths →
          FS.exists_ (fs st) (Pathlib.Path p) = true
          ∨ Str.startswith "_export" p = true) →
       d = []
       ∧ HTML_export env st
         = (Ok tt, State (fs st) (trace st ++ [Scan "*"; Log INFO (MsgWillExport [])]))).
Proof.
  split; [intros f d p; apply MD_frontier_spec|].
  split; [intros f d p; apply HTML_frontier_spec|].
  split.
  - intros st d Hd Hall.
    assert (d = []) as ->.
    { apply no_keys_nil. intros p Hp.
      apply (MD_frontier_spec _ _ _ _ Hd) in Hp as (file & paths & Hf & Hp & Hin & Hex).
      rewrite (Hall file paths p Hf Hp Hin) in Hex. done. }
    split; [done|]. by apply MD_export_empty.
  - intros st d Hd Hall.
    assert (d = []) as ->.
    { apply no_keys_nil. intros p Hp.
      apply (HTML_frontier_spec _ _ _ _ Hd) in Hp
        as (file & paths & Hf & Hp & Hin & Hex & Hout).
      destruct (Hall file paths p Hf Hp Hin) as [H|H]; congruence. }
    split; [done|]. by apply HTML_export_empty.
Qed.

Lemma frontier_rule_witness :
  MD_export offline (State closed_tree [])
  = (Ok tt, State closed_tree [Scan "*.md"; Log WARNING MsgNoItems]).
Proof.
  destruct (frontier_rule offline) as (_ & _ & Hmd & _).
  apply (Hmd (State closed_tree []) []); [reflexivity|].
  intros file paths p Hfile Hpaths Hin.
  change (FS.rglob (fs (State closed_tree [])) "*.md") with [["start.md"]] in Hfile.
  apply list_elem_of_singleton in Hfile as ->.
  change (MD_get_paths offline (fs (State closed_tree [])) ["start.md"])
    with (@Ok (list string) ["start"]) in Hpaths.
  injection Hpaths as <-.
  apply list_elem_of_singleton in Hin as ->.
  reflexivity.
Defined.

(** * Further properties of the code *)

(** ** [insert_id_] *)

Lemma has_char_app (c : ascii) (x y : string) :
  Str.has_char c (x ++ y) = Str.has_char c x || Str.has_char c y.
Proof.
  unfold Str.has_char, Str.chars. induction x as [|d x IH]; simpl; [done|].
  by rewrite IH, orb_assoc.
Qed.

(** The segments [split] returns hold no separator. *)
Lemma split_parts (c : ascii) (s : string) :
  Forall (fun x => Str.has_char c x = false) (Str.split c s).
Proof.
  induction s as [|d s IH]; simpl.
  - by constructor.
  - destruct (Ascii.eqb d c) eqn:Hd.
    + by constructor.
    + destruct (Str.split c s) as [|x xs]; simpl.
      * constructor; [|done]. unfold Str.has_char. simpl.
        by rewrite Ascii.eqb_sym, Hd.
      * inversion IH as [|? ? Hx Hxs]; subst. constructor; [|done].
        unfold Str.has_char in *. simpl. by rewrite Ascii.eqb_sym, Hd.
Qed.

Lemma split_nonempty (c : ascii) (s : string) : Str.split c s ≠ [].
Proof.
  destruct s as [|d s]; simpl; [done|].
  destruct (Ascii.eqb d c); [done|]. by destruct (Str.split c s).
Qed.

Lemma split_join_list (c : ascii) (l : list string) :
  l ≠ [] → Forall (fun s => Str.has_char c s = false) l →
  Str.split c (Str.join (String c "") l) = l.
Proof. destruct l as [|x l]; [done|]. intros _. apply split_join. Qed.

(** X1: [insert_id_] raises [IndexError] exactly when the URL has fewer
    than five slash-separated segments; otherwise the URL it returns has
    the same segments as the input except the fifth, which has [id_]
    appended. *)
Theorem insert_id_segments (url : string) :
  (insert_id_ url = Raise IndexError ↔ (List.length (Str.split "/" url) < 5)%nat)
  ∧ (∀ r, insert_id_ url = Ok r →
       ∃ seg, Str.split "/" url !! 4%nat = Some seg
              ∧ Str.split "/" r = <[4%nat := seg ++ "id_"]> (Str.split "/" url)).
Proof.
  unfold insert_id_.
  destruct (Str.split "/" url !! 4%nat) as [seg|] eqn:Hseg.
  - split.
    + split; [done|]. intros Hlen. apply lookup_lt_Some in Hseg. lia.
    + intros r [= <-]. exists seg. split; [done|].
      apply (split_join_list "/").
      * intros Hnil. apply (f_equal List.length) in Hnil.
        rewrite length_insert in Hnil. apply lookup_lt_Some in Hseg.
        simpl in Hnil. lia.
      * apply Forall_insert; [apply split_parts|].
        rewrite has_char_app.
        pose proof (split_parts "/" url) as Hall.
        rewrite Forall_lookup in Hall. by rewrite (Hall _ _ Hseg).
  - split; [|done]. split; [|done]. intros _. apply lookup_ge_None in Hseg. lia.
Qed.

Lemma insert_id_segments_witness :
  ∃ seg, Str.split "/" "http://web.archive.org/web/2023/https://x/y" !! 4%nat = Some seg
         ∧ Str.split "/" "http://web.archive.org/web/2023id_/https://x/y"
           = <[4%nat := seg ++ "id_"]> (Str.split "/" "http://web.archive.org/web/2023/https://x/y").
Proof.
  destruct (insert_id_segments "http://web.archive.org/web/2023/https://x/y") as [_ H].
  apply (H "http://web.archive.org/web/2023id_/https://x/y"). reflexivity.
Defined.

(** ** The resolver and the fetch at their edges *)

(** X2: with an answer whose [closest] is a dict, [get_url] returns
    [None] when [available] is absent or falsy (the status is then not
    looked at) and when the status is an integer other than 200; it
    raises [TypeError] when the snapshot is available and has no status,
    and [KeyError] when it is available with status 200 and has no
    timestamp. *)
Theorem get_url_edges (env : Env) (p : string) (sfx : option string) (st : state)
    (loaded : json) (kv : list (string * json)) :
  available_api env (available_url p sfx) = Ok loaded →
  closest_of loaded = Ok (JObj kv) →
  (py_truthy (default JNull (assoc "available" kv)) = false →
   get_url env p sfx st = (Ok None, requested st (available_url p sfx)))
  ∧ (∀ status n, py_truthy (default JNull (assoc "available" kv)) = true →
       assoc "status" kv = Some status → py_int status = Ok n → n ≠ 200%Z →
       get_url env p sfx st = (Ok None, requested st (available_url p sfx)))
  ∧ (py_truthy (default JNull (assoc "available" kv)) = true →
     assoc "status" kv = None →
     get_url env p sfx st = (Raise TypeError, requested st (available_url p sfx)))
  ∧ (∀ status, py_truthy (default JNull (assoc "available" kv)) = true →
       assoc "status" kv = Some status → py_int status = Ok 200%Z →
       assoc "timestamp" kv = None →
       get_url env p sfx st = (Raise KeyError, requested st (available_url p sfx))).
Proof.
  intros Hapi Hc.
  assert (Hstart : get_url env p sfx st
    = (if py_truthy (default JNull (assoc "available" kv)) then
         status <- lift (py_get (JObj kv) "status" JNull) ;;
         n <- lift (py_int status) ;;
         if (n =? 200)%Z then
           stamp <- lift (py_item (JObj kv) "timestamp") ;;
           timestamp <- lift (match stamp with
                              | JStr s => strptime env s
                              | _ => Raise TypeError
                              end) ;;
           logging INFO (MsgSnapshot p timestamp) ;;;
           u <- lift (py_get (JObj kv) "url" JNull) ;;
           match u with
           | JStr u => r <- lift (insert_id_ u) ;; ret (Some r)
           | _ => raise AttributeError
           end
         else ret None
       else ret None) (requested st (available_url p sfx))).
  { unfold get_url, closest_of in *.
    unfold bind at 1. cbn [emit]. unfold bind at 1, lift at 1. rewrite Hapi.
    destruct (py_get loaded "archived_snapshots" (JObj [])) as [snaps|]; [|done].
    unfold bind at 1, lift at 1. simpl in Hc.
    unfold bind at 1, lift at 1. rewrite Hc.
    unfold bind at 1, lift at 1. reflexivity. }
  rewrite Hstart. repeat split.
  - by intros ->.
  - intros status n -> Hs Hn Hne.
    unfold bind at 1, lift at 1. cbn [py_get]. rewrite Hs. cbn [default from_option id].
    unfold bind at 1, lift at 1. rewrite Hn. by destruct (Z.eqb_spec n 200).
  - intros -> Hs.
    unfold bind at 1, lift at 1. cbn [py_get]. rewrite Hs. cbn [default from_option id].
    unfold bind at 1, lift at 1. reflexivity.
  - intros status -> Hs Hn Hts.
    unfold bind at 1, lift at 1. cbn [py_get]. rewrite Hs. cbn [default from_option id].
    unfold bind at 1, lift at 1. rewrite Hn. cbn [Z.eqb Pos.eqb].
    unfold bind at 1, lift at 1. cbn [py_item]. by rewrite Hts.
Qed.

Lemma get_url_edges_witness :
  get_url unarchived "start" None empty_state
  = (Ok None, requested empty_state (available_url "start" None)).
Proof.
  destruct (get_url_edges unarchived "start" None empty_state _ [] eq_refl eq_refl)
    as [H _].
  apply H. reflexivity.
Defined.

(** X3: [get_response] turns a [URLError] of the transport into [None]
    and an error line; any other exception of the transport leaves it;
    a response without content type raises [TypeError]; a body whose
    content type mentions [image] is returned as the raw bytes, neither
    decompressed nor decoded, whatever its content encoding. *)
Theorem get_response_cases (env : Env) (url : string) (st : state) :
  (urlopen env url = Raise URLError →
   get_response env url st
   = (Ok None, State (fs st) (trace st ++ [Request url; Log ERROR (MsgURLError url)])))
  ∧ (∀ e, urlopen env url = Raise e → e ≠ URLError →
       get_response env url st = (Raise e, requested st url))
  ∧ (∀ r, urlopen env url = Ok r → content_type r = None →
       get_response env url st = (Raise TypeError, requested st url))
  ∧ (∀ r ct, urlopen env url = Ok r → content_type r = Some ct →
       Str.contains "image" ct = true →
       get_response env url st = (Ok (Some (Bytes (body r))), requested st url)).
Proof.
  unfold get_response, requested. repeat split.
  - intros H. unfold bind at 1. cbn [emit]. rewrite H.
    unfold bind, logging, emit, ret. simpl. by rewrite <- app_assoc.
  - intros e H Hne. unfold bind at 1. cbn [emit]. rewrite H. by destruct e.
  - intros r H Hct. unfold bind at 1. cbn [emit]. rewrite H, Hct. done.
  - intros r ct H Hct Himg. unfold bind at 1. cbn [emit]. rewrite H, Hct, Himg. done.
Qed.

Lemma get_response_cases_witness :
  get_response offline "http://web.archive.org/x" empty_state
  = (Ok None, State ∅ [Request "http://web.archive.org/x";
                       Log ERROR (MsgURLError "http://web.archive.org/x")]).
Proof.
  destruct (get_response_cases offline "http://web.archive.org/x" empty_state) as [H _].
  apply H. reflexivity.
Defined.

(** ** What resolving and fetching leave alone *)

Lemma keeps_ret {A} (a : A) : keeps_fs (ret a).
Proof. by intros st. Qed.

Lemma keeps_raise {A} (e : exn) : keeps_fs (@raise A e).
Proof. by intros st. Qed.

Lemma keeps_lift {A} (r : result A) : keeps_fs (lift r).
Proof. by intros st. Qed.

Lemma keeps_get_fs : keeps_fs get_fs.
Proof. by intros st. Qed.

Lemma keeps_emit (ev : event) : keeps_fs (emit ev).
Proof. by intros st. Qed.

Lemma keeps_bind {A B} (m : M A) (k : A → M B) :
  keeps_fs m → (∀ a, keeps_fs (k a)) → keeps_fs (bind m k).
Proof.
  intros Hm Hk st. unfold bind. specialize (Hm st).
  destruct (m st) as [[a|e] st1]; simpl in *; [|done].
  by rewrite Hk.
Qed.

Lemma keeps_for_each {A} (l : list A) (body : A → M unit) :
  (∀ x, keeps_fs (body x)) → keeps_fs (for_each l body).
Proof.
  intros Hbody. induction l as [|x l IH]; simpl.
  - apply keeps_ret.
  - apply keeps_bind; [apply Hbody | intros _; apply IH].
Qed.

Ltac keeps_step :=
  first
    [ apply keeps_ret | apply keeps_raise | apply keeps_lift
    | apply keeps_get_fs | apply keeps_emit
    | apply keeps_bind | apply keeps_for_each
    | match goal with
      | |- keeps_fs (match ?x with _ => _ end) => destruct x
      | |- keeps_fs (if ?b then _ else _) => destruct b
      | |- ∀ _, _ => intro
      end ].

Lemma keeps_get_url (env : Env) (p : string) (sfx : option string) :
  keeps_fs (get_url env p sfx).
Proof. unfold get_url. repeat keeps_step. Qed.

Lemma keeps_get_response (env : Env) (url : string) :
  keeps_fs (get_response env url).
Proof. unfold get_response. repeat keeps_step. Qed.

Lemma export_path_outcome (env : Env) (p : string) (us fsfx : option string)
    (st st' : state) (o : option path) :
  export_path env p us fsfx st = (Ok o, st') →
  match o with
  | None => fs st' = fs st
  | Some file => file = target_file p fsfx
  end.
Proof.
  unfold export_path. unfold bind at 1.
  pose proof (keeps_get_url env p us st) as H1.
  destruct (get_url env p us st) as [[[url|]|e] st1]; simpl in H1; [| |done].
  - destruct (negb (Str.truthy url)).
    { unfold bind, logging, emit, ret. simpl. by intros [= <- <-]. }
    unfold bind at 1.
    pose proof (keeps_get_response env url st1) as H2.
    destruct (get_response env url st1) as [[[r|]|e] st2]; simpl in H2; [| |done].
    + destruct (negb (Str.truthy (payload r))).
      { unfold bind, logging, emit, ret. simpl. intros [= <- <-]. simpl. congruence. }
      unfold bind at 1.
      destruct ((if decide (fsfx = Some "md")
                 then s <- lift (MD_get_data env r);; ret (Text s)
                 else ret r) st2) as [[r'|e] st3]; [|done].
      unfold bind at 1.
      destruct (write (target_file p fsfx) r' st3) as [[[]|e] st4]; [|done].
      unfold ret. by intros [= <- _].
    + unfold bind, logging, emit, ret. simpl. intros [= <- <-]. simpl. congruence.
  - unfold bind, logging, emit, ret. simpl. by intros [= <- <-].
Qed.

(** X4: when [export_path] returns [None] (no URL, no response or an
    empty body) the tree is as it was: nothing was created, renamed or
    written; and when it returns a path, that path is the one computed
    from the logical path and the file suffix. *)
Theorem export_path_result (env : Env) (p : string) (us fsfx : option string)
    (st st' : state) :
  (export_path env p us fsfx st = (Ok None, st') → fs st' = fs st)
  ∧ (∀ file, export_path env p us fsfx st = (Ok (Some file), st') →
       file = target_file p fsfx).
Proof.
  split.
  - apply (export_path_outcome env p us fsfx st st' None).
  - intros file. apply (export_path_outcome env p us fsfx st st' (Some file)).
Qed.

Lemma export_path_result_witness :
  fs (snd (export_path unarchived "start" None None (State occupied []))) = occupied.
Proof.
  destruct (export_path_result unarchived "start" None None (State occupied [])
              (snd (export_path unarchived "start" None None (State occupied []))))
    as [H _].
  apply H. reflexivity.
Defined.

(** ** A pass and the failures of its items *)

Lemma export_path_no_snapshot (env : Env) (p : string) (us fsfx : option string)
    (st : state) (loaded : json) :
  available_api env (available_url p us) = Ok loaded →
  closest_of loaded = Ok (JObj []) →
  export_path env p us fsfx st
  = (Ok None, State (fs st) (trace st ++ [Request (available_url p us);
                                          Log ERROR (MsgNoUrl p)])).
Proof.
  intros Hapi Hc. unfold export_path.
  rewrite (bind_eq _ _ _ _ _ (get_url_no_snapshot env p us st loaded Hapi Hc)).
  unfold bind, logging, emit, ret, requested. simpl. by rewrite <- app_assoc.
Qed.

Lemma export_path_propagates (env : Env) (p : string) (us fsfx : option string)
    (st : state) (e : exn) :
  available_api env (available_url p us) = Raise e →
  export_path env p us fsfx st = (Raise e, requested st (available_url p us)).
Proof.
  intros Hapi. unfold export_path.
  by rewrite (bind_raise _ _ _ _ _ (get_url_propagates env p us st e Hapi)).
Qed.

(** X5: an exception of the availability request is not logged and
    skipped: it ends the pass at the first item of the frontier, before
    any pause, with the tree as it was; the other items are not tried. *)
Theorem pass_aborted_by_resolver (env : Env) (st : state) (p : string)
    (file : path) (rest : list (string * path)) (e : exn) :
  (MD_unexported env (fs st) = Ok ((p, file) :: rest) →
   available_api env (available_url p (Some "?do=edit")) = Raise e →
   MD_export env st
   = (Raise e, State (fs st)
                 (trace st ++ [Scan "*.md";
                               Request (available_url p (Some "?do=edit"))])))
  ∧ (HTML_unexported env (fs st) = Ok ((p, file) :: rest) →
     available_api env (available_url p None) = Raise e →
     HTML_export env st
     = (Raise e, State (fs st)
                   (trace st ++ [Scan "*";
                                 Log INFO (MsgWillExport (p :: keys rest));
                                 Request (available_url p None)]))).
Proof.
  split.
  - intros Hd Hapi. unfold MD_export.
    unfold bind at 1. cbn [emit]. unfold bind at 1, get_fs at 1. cbn [fs].
    unfold bind at 1, lift at 1. rewrite Hd. cbn [keys map fst for_each].
    unfold bind at 1. unfold bind at 1.
    rewrite (export_path_propagates env p _ _ _ e Hapi).
    unfold requested. simpl. by rewrite <- app_assoc.
  - intros Hd Hapi. unfold HTML_export.
    unfold bind at 1. cbn [emit]. unfold bind at 1, get_fs at 1. cbn [fs].
    unfold bind at 1, lift at 1. rewrite Hd.
    unfold bind at 1. cbn [logging emit fs trace for_each fst].
    unfold bind at 1. unfold bind at 1.
    rewrite (export_path_propagates env p _ _ _ e Hapi).
    unfold requested. simpl. by rewrite <- !app_assoc.
Qed.

Lemma pass_aborted_by_resolver_witness :
  MD_export offline (State dead_link_tree [])
  = (Raise URLError,
     State dead_link_tree
       [Scan "*.md"; Request (available_url "commands/builtin/true" (Some "?do=edit"))]).
Proof.
  destruct (pass_aborted_by_resolver offline (State dead_link_tree [])
              "commands/builtin/true" ["start.md"] [] URLError) as [H _].
  apply H; reflexivity.
Defined.

(** The trace of a pass all of whose items have no capture. *)
Lemma for_each_skips (env : Env) (us fsfx : option string) (pause : nat)
    (l : list string) (st : state) :
  (∀ p, p ∈ l → ∃ loaded, available_api env (available_url p us) = Ok loaded
                          ∧ closest_of loaded = Ok (JObj [])) →
  for_each l (fun p => export_path env p us fsfx ;;; emit (Sleep pause)) st
  = (Ok tt,
     State (fs st)
       (trace st ++ (p ← l; [Request (available_url p us); Log ERROR (MsgNoUrl p);
                             Sleep pause]))).
Proof.
  revert st. induction l as [|p l IH]; intros st Hall.
  - simpl. unfold ret. destruct st. simpl. by rewrite app_nil_r.
  - destruct (Hall p) as (loaded & Hapi & Hc); [by left|].
    cbn [for_each]. unfold bind at 1. unfold bind at 1.
    rewrite (export_path_no_snapshot env p us fsfx st loaded Hapi Hc).
    cbn [emit fs trace]. rewrite IH by (intros q Hq; apply Hall; by right).
    simpl. by rewrite <- !app_assoc.
Qed.

Lemma for_each_map {A B} (f : A → B) (l : list A) (body : B → M unit) :
  for_each l (fun x => body (f x)) = for_each (map f l) body.
Proof. induction l as [|x l IH]; simpl; [done|]. by rewrite IH. Qed.

(** X6: a missing capture is logged and skipped: when no path of the
    frontier has a capture, the pass tries every path of the frontier
    once, in order, logs an error and pauses after each, returns, and
    leaves the tree as it was. *)
Theorem pass_skips_unavailable (env : Env) (st : state) (d : list (string * path)) :
  (MD_unexported env (fs st) = Ok d →
   (∀ p, p ∈ keys d →
      ∃ loaded, available_api env (available_url p (Some "?do=edit")) = Ok loaded
                ∧ closest_of loaded = Ok (JObj [])) →
   MD_export env st
   = (Ok tt,
      State (fs st)
        (trace st ++ Scan "*.md" ::
           match d with
           | [] => [Log WARNING MsgNoItems]
           | _ => p ← keys d;
                  [Request (available_url p (Some "?do=edit"));
                   Log ERROR (MsgNoUrl p); Sleep 2]
           end)))
  ∧ (HTML_unexported env (fs st) = Ok d →
     (∀ p, p ∈ keys d →
        ∃ loaded, available_api env (available_url p None) = Ok loaded
                  ∧ closest_of loaded = Ok (JObj [])) →
     HTML_export env st
     = (Ok tt,
        State (fs st)
          (trace st ++ Scan "*" :: Log INFO (MsgWillExport (keys d)) ::
             (p ← keys d;
              [Request (available_url p None); Log ERROR (MsgNoUrl p); Sleep 1])))).
Proof.
  split.
  - intros Hd Hall. unfold MD_export.
    unfold bind at 1. cbn [emit]. unfold bind at 1, get_fs at 1. cbn [fs].
    unfold bind at 1, lift at 1. rewrite Hd.
    destruct d as [|item d'].
    + unfold logging, emit. simpl. by rewrite <- app_assoc.
    + rewrite (for_each_skips env (Some "?do=edit") (Some "md") 2) by done.
      simpl. by rewrite <- app_assoc.
  - intros Hd Hall. unfold HTML_export.
    unfold bind at 1. cbn [emit]. unfold bind at 1, get_fs at 1. cbn [fs].
    unfold bind at 1, lift at 1. rewrite Hd.
    unfold bind at 1. cbn [logging emit fs trace].
    rewrite (for_each_map fst d
               (fun p => export_path env p None None ;;; emit (Sleep 1))).
    fold (keys d).
    rewrite (for_each_skips env None None 1) by done.
    simpl. by rewrite <- !app_assoc.
Qed.

Lemma pass_skips_unavailable_witness :
  MD_export unarchived (State dead_link_tree [])
  = (Ok tt,
     State dead_link_tree
       [Scan "*.md";
        Request (available_url "commands/builtin/true" (Some "?do=edit"));
        Log ERROR (MsgNoUrl "commands/builtin/true"); Sleep 2]).
Proof.
  destruct (pass_skips_unavailable unarchived (State dead_link_tree [])
              [("commands/builtin/true", ["start.md"])]) as [H _].
  apply H; [reflexivity|].
  intros p _. eexists. split; reflexivity.
Defined.

(** ** The paths [MD.get_paths] returns *)








(** ** The filesystem under [write] *)

Lemma node_at_insert_ne (f : FS.t) (p q : path) (x : node) :
  q ≠ p → FS.node_at (<[q := x]> f) p = FS.node_at f p.
Proof.
  intros Hne. unfold FS.node_at.
  destruct p as [|r [|r' p]]; [done| |by rewrite lookup_insert_ne].
  destruct (Pathlib.is_root r); [done|]. by rewrite lookup_insert_ne.
Qed.

Lemma node_at_insert_eq (f : FS.t) (q : path) (x : node) :
  FS.node_at f q ≠ Some Dir → FS.node_at (<[q := x]> f) q = Some x.
Proof.
  unfold FS.node_at. destruct q as [|r [|r' q]]; [done| |by rewrite lookup_insert_eq].
  destruct (Pathlib.is_root r); [done|]. by rewrite lookup_insert_eq.
Qed.

Lemma node_at_None (f : FS.t) (p : path) : FS.node_at f p = None → f !! p = None.
Proof.
  unfold FS.node_at. destruct p as [|r [|r' p]]; [done| |done].
  by destruct (Pathlib.is_root r).
Qed.

Lemma node_at_not_dir (f : FS.t) (p : path) :
  FS.node_at f p ≠ Some Dir → f !! p = FS.node_at f p.
Proof.
  unfold FS.node_at. destruct p as [|r [|r' p]]; [done| |done].
  by destruct (Pathlib.is_root r).
Qed.

(** Where [follow] stops there is no link. *)
Lemma follow_end (n : nat) (f : FS.t) (p q : path) (t : path) :
  FS.follow n f p = Some q → FS.node_at f q ≠ Some (Symlink t).
Proof.
  revert p. induction n as [|n IH]; intros p H; simpl in H;
    destruct (FS.node_at f p) as [[d| |target]|] eqn:Hp;
    try (injection H as <-; congruence); try done.
  by apply IH in H.
Qed.

Lemma node_at_insert_file (f : FS.t) (q : path) (data : string) :
  FS.node_at (<[q := File data]> f) q = Some (File data)
  ∨ FS.node_at (<[q := File data]> f) q = Some Dir.
Proof.
  unfold FS.node_at. destruct q as [|r [|r' q]]; [by right| |].
  - destruct (Pathlib.is_root r); [by right|]. left. by rewrite lookup_insert_eq.
  - left. by rewrite lookup_insert_eq.
Qed.

(** Writing a file where [follow] stops does not move that place. *)
Lemma follow_insert (n : nat) (f : FS.t) (p q : path) (data : string) :
  FS.follow n f p = Some q →
  FS.follow n (<[q := File data]> f) p = Some q.
Proof.
  revert p. induction n as [|n IH]; intros p H; simpl in *;
    destruct (FS.node_at f p) as [[d| |target]|] eqn:Hp;
    try (injection H as <-;
         by destruct (node_at_insert_file f p data) as [-> | ->]);
    try done.
  assert (q ≠ p) as Hne.
  { intros ->. by apply (follow_end n f _ p target) in H. }
  rewrite node_at_insert_ne, Hp by done. by apply IH.
Qed.

(** What [write_data] wrote is what [read_text] reads. *)
Lemma write_data_read (f f' : FS.t) (p : path) (data : string) :
  FS.write_data f p data = Ok f' →
  FS.read_text f' p = Ok (FS.universal_newlines data).
Proof.
  unfold FS.write_data, FS.read_text, FS.stat.
  destruct (FS.follow FS.max_links f p) as [q|] eqn:Hq; [|done].
  assert (FS.node_at f q ≠ Some Dir → f' = <[q := File data]> f →
          match FS.follow FS.max_links f' p with
          | Some q0 => FS.node_at f' q0
          | None => None
          end = Some (File data)) as Hdone.
  { intros Hd ->. rewrite (follow_insert _ _ _ _ _ Hq). by apply node_at_insert_eq. }
  destruct (FS.node_at f q) as [[d| |t]|] eqn:Hn.
  - intros [= <-]. rewrite Hdone; [done|congruence|done].
  - done.
  - intros [= <-]. rewrite Hdone; [done|congruence|done].
  - destruct (FS.parent_check f q); [|done].
    intros [= <-]. rewrite Hdone; [done|congruence|done].
Qed.

Lemma rename_if_collision_inv (file file' : path) (st st1 : state) :
  rename_if_collision file st = (Ok file', st1) →
  file' = written_path (fs st) file
  ∧ if FS.is_file (fs st) (Pathlib.parent file)
    then ∃ f1, FS.rename (fs st) (Pathlib.parent file) file' = Ok f1 ∧ fs st1 = f1
    else st1 = st.
Proof.
  unfold rename_if_collision, written_path.
  unfold bind at 1, get_fs at 1.
  destruct (FS.is_file (fs st) (Pathlib.parent file)).
  - unfold bind at 1, logging, emit. cbn [fs trace].
    unfold bind at 1, lift at 1.
    destruct (FS.rename (fs st) _ _) as [f1|e] eqn:Hren; [|done].
    unfold bind, put_fs, ret. simpl. intros [= <- <-]. split; [done|].
    by exists f1.
  - unfold ret. by intros [= <- <-].
Qed.

Lemma write_inv (file : path) (r : response) (st st' : state) :
  write file r st = (Ok tt, st') →
  ∃ st1 f1 f2,
    rename_if_collision file st = (Ok (written_path (fs st) file), st1)
    ∧ FS.mkdir (fs st1) (Pathlib.parent (written_path (fs st) file)) = Ok f1
    ∧ FS.write_data f1 (written_path (fs st) file) (payload r) = Ok f2
    ∧ fs st' = f2.
Proof.
  unfold write. intros H.
  apply bind_ok in H as (file' & st1 & Hren & H).
  pose proof (rename_if_collision_inv _ _ _ _ Hren) as [-> _].
  unfold bind at 1, get_fs at 1 in H.
  unfold bind at 1, lift at 1 in H.
  destruct (FS.mkdir (fs st1) _) as [f1|e] eqn:Hmk; [|done].
  unfold bind at 1, put_fs at 1 in H.
  unfold bind at 1, get_fs at 1 in H. cbn [fs] in H.
  unfold bind at 1, lift at 1 in H.
  destruct (FS.write_data f1 _ _) as [f2|e] eqn:Hwr; [|done].
  unfold put_fs in H. injection H as <-.
  by exists st1, f1, f2.
Qed.

Lemma write_reads_back (file : path) (r : response) (st st' : state) :
  write file r st = (Ok tt, st') →
  FS.read_text (fs st') (written_path (fs st) file)
  = Ok (FS.universal_newlines (payload r)).
Proof.
  intros H. apply write_inv in H as (st1 & f1 & f2 & _ & _ & Hwr & ->).
  by apply write_data_read in Hwr.
Qed.

(** X9: when [write] returns, the content is on disk at the path
    [rename_if_collision] chose: reading that path gives the content
    back (as text, with newlines translated).  Without a collision that
    is the path asked for; with a collision it is the renamed
    [_<stem>] beside the blocking file. *)
Theorem write_then_read (file : path) (r : response) (st st' : state) :
  write file r st = (Ok tt, st') →
  FS.read_text (fs st') (written_path (fs st) file)
  = Ok (FS.universal_newlines (payload r)).
Proof.
  intros H.
  apply write_inv in H as (st1 & f1 & f2 & Hrename & Hmkdir & Hwrite & ->).
  unfold FS.read_text.
  apply write_data_read in Hwrite. unfold FS.read_text in Hwrite.
  exact Hwrite.
Qed.

Lemma write_then_read_witness :
  FS.read_text (fs (snd (write ["a"; "b"; "c"] (Text "new") (State occupied []))))
               ["a"; "_b"]
  = Ok "new".
Proof.
  apply (write_then_read ["a"; "b"; "c"] (Text "new") (State occupied [])).
  reflexivity.
Defined.

Lemma mkdir_walk_keeps (rest pre : path) (f f' : FS.t) :
  FS.mkdir_walk pre rest f = Ok f' →
  ∀ p n, f !! p = Some n → f' !! p = Some n.
Proof.
  revert pre f. induction rest as [|c rest IH]; intros pre f; simpl.
  - by intros [= <-].
  - destruct (FS.stat f (pre ++ [c])) as [[d| |t]|]; try done.
    + apply IH.
    + destruct (FS.node_at f (pre ++ [c])) eqn:Hn; [done|].
      intros H p n Hp. apply (IH _ _ H).
      rewrite lookup_insert_ne; [done|].
      intros <-. apply node_at_None in Hn. congruence.
Qed.

Lemma write_data_keeps (f f' : FS.t) (p : path) (data : string) :
  FS.write_data f p data = Ok f' →
  (∀ p', f !! p' = Some Dir → f' !! p' = Some Dir)
  ∧ (∀ p' n, f !! p' = Some n → is_Some (f' !! p')).
Proof.
  unfold FS.write_data.
  destruct (FS.follow FS.max_links f p) as [q|]; [|done].
  assert (FS.node_at f q ≠ Some Dir → f' = <[q := File data]> f →
          (∀ p', f !! p' = Some Dir → f' !! p' = Some Dir)
          ∧ (∀ p' n, f !! p' = Some n → is_Some (f' !! p'))) as Hdone.
  { intros Hd ->. split.
    - intros p' Hp'. rewrite lookup_insert_ne; [done|].
      intros <-. rewrite (node_at_not_dir _ _ Hd) in Hp'. done.
    - intros p' n Hp'. destruct (decide (q = p')) as [<-|Hne].
      + rewrite lookup_insert_eq. eauto.
      + rewrite lookup_insert_ne by done. eauto. }
  destruct (FS.node_at f q) as [[d| |t]|] eqn:Hn.
  - intros [= <-]. apply Hdone; [congruence|done].
  - done.
  - intros [= <-]. apply Hdone; [congruence|done].
  - destruct (FS.parent_check f q); [|done].
    intros [= <-]. apply Hdone; [congruence|done].
Qed.

Lemma rename_keeps (f f' : FS.t) (src dst : path) :
  FS.rename f src dst = Ok f' →
  (∀ p', f !! p' = Some Dir → f' !! p' = Some Dir)
  ∧ (∀ p' n, f !! p' = Some n → p' ≠ src → is_Some (f' !! p')).
Proof.
  unfold FS.rename. destruct src as [|s src]; [done|].
  destruct (f !! (s :: src)) as [n|] eqn:Hsrc; [|done].
  assert (n ≠ Dir → FS.parent_check f dst = Ok tt →
          FS.node_at f dst ≠ Some Dir →
          f' = <[dst := n]> (delete (s :: src) f) →
          (∀ p', f !! p' = Some Dir → f' !! p' = Some Dir)
          ∧ (∀ p' n, f !! p' = Some n → p' ≠ s :: src → is_Some (f' !! p'))) as Hdone.
  { intros Hn _ Hd ->. split.
    - intros p' Hp'.
      rewrite lookup_insert_ne.
      + rewrite lookup_delete_ne; [done|]. intros <-. congruence.
      + intros <-. rewrite (node_at_not_dir _ _ Hd) in Hp'. done.
    - intros p' n' Hp' Hne. destruct (decide (dst = p')) as [<-|Hne'].
      + rewrite lookup_insert_eq. eauto.
      + rewrite lookup_insert_ne, lookup_delete_ne by done. eauto. }
  destruct n as [d| |t]; [|done|].
  - destruct (FS.parent_check f dst) as [[]|]; [|done].
    destruct (FS.node_at f dst) as [[d'| |t']|] eqn:Hdst; try done;
      intros [= <-]; apply Hdone; congruence.
  - destruct (FS.parent_check f dst) as [[]|]; [|done].
    destruct (FS.node_at f dst) as [[d'| |t']|] eqn:Hdst; try done;
      intros [= <-]; apply Hdone; congruence.
Qed.

(** X10: [write] never replaces a directory and removes no entry other
    than the file that blocks the parent: every directory of the tree
    is still a directory afterwards, and every other entry is still
    there. *)
Theorem write_keeps (file : path) (r : response) (st st' : state) :
  write file r st = (Ok tt, st') →
  (∀ p, fs st !! p = Some Dir → fs st' !! p = Some Dir)
  ∧ (∀ p n, fs st !! p = Some n → p ≠ Pathlib.parent file → is_Some (fs st' !! p)).
Proof.
  intros H. apply write_inv in H as (st1 & f1 & f2 & Hren & Hmk & Hwr & ->).
  apply rename_if_collision_inv in Hren as [_ Hren].
  apply write_data_keeps in Hwr as [Hwd Hwe].
  pose proof (mkdir_walk_keeps _ _ _ _ Hmk) as Hmkeep.
  destruct (FS.is_file (fs st) (Pathlib.parent file)).
  - destruct Hren as (f0 & Hren & Hf0). rewrite Hf0 in Hmkeep.
    apply rename_keeps in Hren as [Hrd Hre]. split.
    + intros p Hp. apply Hwd, Hmkeep, Hrd, Hp.
    + intros p n Hp Hne. destruct (Hre p n Hp Hne) as [n' Hn'].
      apply (Hwe p n'), Hmkeep, Hn'.
  - subst st1. split.
    + intros p Hp. apply Hwd, Hmkeep, Hp.
    + intros p n Hp _. apply (Hwe p n), Hmkeep, Hp.
Qed.

Lemma write_keeps_witness :
  fs (snd (write ["a"; "b"; "c"] (Text "new") (State occupied []))) !! ["a"] = Some Dir.
Proof.
  destruct (write_keeps ["a"; "b"; "c"] (Text "new") (State occupied [])
              (snd (write ["a"; "b"; "c"] (Text "new") (State occupied []))))
    as [H _]; [reflexivity|].
  apply H. reflexivity.
Defined.

(** ** Progress of an export *)

(** A successful [export_path] ends with a [write] to the target on the
    tree it started from. *)
Lemma export_path_writes (env : Env) (p : string) (us fsfx : option string)
    (st st' : state) (file : path) :
  export_path env p us fsfx st = (Ok (Some file), st') →
  ∃ st2 r, fs st2 = fs st ∧ write (target_file p fsfx) r st2 = (Ok tt, st').
Proof.
  unfold export_path. unfold bind at 1.
  pose proof (keeps_get_url env p us st) as H1.
  destruct (get_url env p us st) as [[[url|]|e] st1]; simpl in H1; [| |done].
  - destruct (negb (Str.truthy url)).
    { unfold bind, logging, emit, ret. simpl. by intros [= ]. }
    unfold bind at 1.
    pose proof (keeps_get_response env url st1) as H2.
    destruct (get_response env url st1) as [[[r|]|e] st2]; simpl in H2; [| |done].
    + destruct (negb (Str.truthy (payload r))).
      { unfold bind, logging, emit, ret. simpl. by intros [= ]. }
      unfold bind at 1.
      destruct ((if decide (fsfx = Some "md")
                 then s <- lift (MD_get_data env r);; ret (Text s)
                 else ret r) st2) as [[r'|e] st3] eqn:Hdata; [|done].
      assert (st3 = st2) as ->.
      { destruct (decide (fsfx = Some "md")).
        - unfold bind, lift, ret in Hdata.
          destruct (MD_get_data env r); by injection Hdata.
        - unfold ret in Hdata. by injection Hdata. }
      unfold bind at 1.
      destruct (write (target_file p fsfx) r' st2) as [[[]|e] st4] eqn:Hw; [|done].
      unfold ret. intros [= _ <-]. exists st2, r'. split; [congruence|done].
    + unfold bind, logging, emit, ret. simpl. by intros [= ].
  - unfold bind, logging, emit, ret. simpl. by intros [= ].
Qed.

Lemma read_text_is_file (f : FS.t) (p : path) (data : string) :
  FS.read_text f p = Ok data → FS.is_file f p = true.
Proof.
  unfold FS.read_text, FS.is_file. by destruct (FS.stat f p) as [[| |]|].
Qed.

Lemma is_file_exists (f : FS.t) (p : path) :
  FS.is_file f p = true → FS.exists_ f p = true.
Proof.
  unfold FS.is_file, FS.exists_. by destruct (FS.stat f p) as [[| |]|].
Qed.

(** X11: when [export_path] materializes a structural path whose parent
    is not a file, the path is a file afterwards, and it is in no
    frontier computed from the resulting tree: it is not fetched again. *)
Theorem HTML_export_progress (env : Env) (p : string) (st st' : state) (file : path) :
  export_path env p None None st = (Ok (Some file), st') →
  FS.is_file (fs st) (Pathlib.parent (Pathlib.Path p)) = false →
  FS.is_file (fs st') (Pathlib.Path p) = true
  ∧ ∀ d, HTML_unexported env (fs st') = Ok d → p ∉ keys d.
Proof.
  intros H Hfree.
  apply export_path_writes in H as (st2 & r & Hfs & Hw).
  apply write_reads_back in Hw. rewrite Hfs in Hw.
  unfold written_path, target_file in Hw. rewrite Hfree in Hw.
  apply read_text_is_file in Hw. split; [done|].
  intros d Hd Hin.
  apply (HTML_frontier_spec _ _ _ _ Hd) in Hin as (_ & _ & _ & _ & _ & Hex & _).
  apply is_file_exists in Hw. congruence.
Qed.

Lemma HTML_export_progress_witness :
  let env := archive "<html>bash</html>" (Ok plain_page) in
  FS.is_file (fs (snd (export_path env "start" None None empty_state))) ["start"] = true
  ∧ ∀ d, HTML_unexported env (fs (snd (export_path env "start" None None empty_state)))
         = Ok d → "start" ∉ keys d.
Proof.
  intros env.
  destruct (export_path env "start" None None empty_state) as [r st'] eqn:E.
  assert (r = Ok (Some ["start"])) as ->.
  { apply (f_equal fst) in E. vm_compute in E. congruence. }
  apply (HTML_export_progress env "start" empty_state st' ["start"] E).
  reflexivity.
Defined.

(** ** The file checked and the file written, content kind *)

Lemma split_app_nosep (c : ascii) (p s : string) :
  Str.has_char c s = false →
  Str.split c (p ++ s)
  = (removelast (Str.split c p) ++ [(List.last (Str.split c p) "" ++ s)%string])%list.
Proof.
  intros Hs. induction p as [|d p IH].
  - simpl. by apply split_no_sep.
  - change (String d p ++ s) with (String d (p ++ s)).
    cbn [Str.split]. rewrite IH.
    pose proof (split_nonempty c p) as Hne.
    destruct (Str.split c p) as [|x xs]; [done|].
    destruct (Ascii.eqb d c).
    + reflexivity.
    + destruct xs as [|y xs]; reflexivity.
Qed.

Lemma root_of_app (p s : string) :
  List.last (Str.split "/" p) "" ≠ "" →
  Pathlib.root_of (p ++ s) = Pathlib.root_of p.
Proof.
  unfold Pathlib.root_of, Str.startswith.
  destruct p as [|c1 p]; [done|]. intros Hlast.
  change (String c1 p ++ s) with (String c1 (p ++ s)). cbn [String.prefix].
  destruct (ascii_dec "/" c1) as [<-|]; [|done].
  destruct p as [|c2 p]; [done|].
  change (String c2 p ++ s) with (String c2 (p ++ s)). cbn [String.prefix].
  destruct (ascii_dec "/" c2) as [<-|]; [|by destruct (p ++ s), p].
  destruct p as [|c3 p]; [done|].
  change (String c3 p ++ s) with (String c3 (p ++ s)). cbn [String.prefix].
  destruct (ascii_dec "/" c3) as [<-|]; [|done].
  by destruct (p ++ s), p.
Qed.

Lemma no_slash_not_root (l : string) :
  Str.has_char "/" l = false → Pathlib.is_root l = false.
Proof.
  unfold Pathlib.is_root. intros H.
  destruct (String.eqb_spec l "/") as [->|_]; [done|].
  by destruct (String.eqb_spec l "//") as [->|_].
Qed.

Lemma parent_snoc (X : path) (l : string) :
  Pathlib.is_root l = false → Pathlib.parent (X ++ [l]) = X.
Proof.
  intros Hl.
  destruct X as [|x [|y X]].
  - simpl. by rewrite Hl.
  - done.
  - exact (removelast_last (x :: y :: X) l).
Qed.

Lemma name_snoc (X : path) (l : string) :
  Pathlib.is_root l = false → Pathlib.name (X ++ [l]) = l.
Proof.
  intros Hl.
  destruct X as [|x [|y X]].
  - simpl. by rewrite Hl.
  - done.
  - exact (last_last (x :: y :: X) l "").
Qed.

Lemma root_of_no_slash (s : string) :
  Str.has_char "/" s = false → Pathlib.root_of s = [].
Proof.
  unfold Pathlib.root_of, Str.startswith, Str.has_char, Str.chars.
  destruct s as [|c s]; [done|].
  cbn [list_ascii_of_string existsb String.prefix]. intros H.
  apply orb_false_iff in H as [Hc _]. apply Ascii.eqb_neq in Hc.
  by destruct (ascii_dec "/" c).
Qed.

Lemma keep_part_md (l : string) : Pathlib.keep_part (l ++ ".md") = true.
Proof.
  unfold Pathlib.keep_part.
  assert (String.length (l ++ ".md") = (String.length l + 3)%nat) as Hlen.
  { induction l as [|c l IH]; simpl; [done|]. by rewrite IH. }
  destruct (String.eqb_spec (l ++ ".md") "") as [E|_].
  { rewrite E in Hlen. simpl in Hlen. lia. }
  destruct (String.eqb_spec (l ++ ".md") ".") as [E|_]; [|done].
  rewrite E in Hlen. simpl in Hlen. lia.
Qed.

Lemma Path_single (s : string) :
  Str.has_char "/" s = false → Pathlib.keep_part s = true →
  Pathlib.Path s = [s].
Proof.
  intros Hs Hk. unfold Pathlib.Path.
  rewrite root_of_no_slash, split_no_sep by done. simpl. by rewrite Hk.
Qed.

(** For a logical path whose last segment is neither empty nor ["."],
    the file [export_path] writes with the suffix [md] is the file whose
    existence [MD.export] checks. *)
Lemma MD_target_agrees (p : string) :
  List.last (Str.split "/" p) "" ≠ "" →
  List.last (Str.split "/" p) "" ≠ "." →
  target_file p (Some "md") = Pathlib.Path (p ++ ".md").
Proof.
  intros Hne Hdot.
  pose proof (split_nonempty "/" p) as Hsegs.
  pose proof (split_parts "/" p) as Hparts.
  set (l := List.last (Str.split "/" p) "") in *.
  set (init := removelast (Str.split "/" p)).
  assert (Str.split "/" p = (init ++ [l])%list) as Hsplit
    by (by apply app_removelast_last).
  assert (Str.has_char "/" l = false) as Hl.
  { rewrite Hsplit in Hparts. apply Forall_app in Hparts as [_ Hparts].
    by inversion Hparts. }
  assert (Pathlib.keep_part l = true) as Hkeep.
  { unfold Pathlib.keep_part.
    destruct (String.eqb_spec l ""); [done|].
    by destruct (String.eqb_spec l "."). }
  assert (Pathlib.Path p
          = ((Pathlib.root_of p ++ List.filter Pathlib.keep_part init) ++ [l])%list)
    as HP.
  { unfold Pathlib.Path. rewrite Hsplit, List.filter_app. simpl.
    by rewrite Hkeep, app_assoc. }
  assert (Pathlib.Path (p ++ ".md")
          = ((Pathlib.root_of p ++ List.filter Pathlib.keep_part init)
             ++ [(l ++ ".md")%string])%list) as HP'.
  { unfold Pathlib.Path. rewrite root_of_app by done.
    rewrite (split_app_nosep "/" p ".md") by done.
    fold init l. rewrite List.filter_app. simpl.
    by rewrite keep_part_md, app_assoc. }
  unfold target_file. cbn [Str.truthy].
  rewrite HP, HP'.
  rewrite parent_snoc, name_snoc by (by apply no_slash_not_root).
  change (l ++ "." ++ "md") with (l ++ ".md").
  unfold Pathlib.div.
  assert (Str.has_char "/" (l ++ ".md") = false) as Hlm
    by (by rewrite has_char_app, Hl).
  rewrite Path_single by (done || apply keep_part_md).
  unfold Pathlib.joinpath, Pathlib.is_absolute.
  by rewrite (no_slash_not_root _ Hlm).
Qed.

Example MD_target_of_a_path_ending_with_a_slash :
  target_file "a/" (Some "md") = ["a.md"]
  ∧ Pathlib.Path ("a/" ++ ".md") = ["a"; ".md"].
Proof. split; reflexivity. Qed.

(** X12: when [export_path] materializes a content path whose last
    segment is neither empty nor ["."] and whose parent is not a file,
    the file checked by [MD.export] (the path with [.md] appended) is a
    file afterwards, and the path is in no frontier computed from the
    resulting tree. *)
Theorem MD_export_progress (env : Env) (p : string) (us : option string)
    (st st' : state) (file : path) :
  export_path env p us (Some "md") st = (Ok (Some file), st') →
  List.last (Str.split "/" p) "" ≠ "" →
  List.last (Str.split "/" p) "" ≠ "." →
  FS.is_file (fs st) (Pathlib.parent (Pathlib.Path (p ++ ".md"))) = false →
  FS.is_file (fs st') (Pathlib.Path (p ++ ".md")) = true
  ∧ ∀ d, MD_unexported env (fs st') = Ok d → p ∉ keys d.
Proof.
  intros H Hne Hdot Hfree.
  apply export_path_writes in H as (st2 & r & Hfs & Hw).
  apply write_reads_back in Hw. rewrite Hfs in Hw.
  rewrite (MD_target_agrees p Hne Hdot) in Hw.
  unfold written_path in Hw. rewrite Hfree in Hw.
  apply read_text_is_file in Hw. split; [done|].
  intros d Hd Hin.
  apply (MD_frontier_spec _ _ _ _ Hd) in Hin as (_ & _ & _ & _ & _ & Hex).
  apply is_file_exists in Hw. congruence.
Qed.

Lemma MD_export_progress_witness :
  let env := archive "<html>edit</html>" (Ok edit_view) in
  let st' := snd (export_path env "start" (Some "?do=edit") (Some "md") empty_state) in
  FS.is_file (fs st') ["start.md"] = true
  ∧ ∀ d, MD_unexported env (fs st') = Ok d → "start" ∉ keys d.
Proof.
  intros env st'. subst st'.
  destruct (export_path env "start" (Some "?do=edit") (Some "md") empty_state)
    as [r st'] eqn:E.
  assert (r = Ok (Some ["start.md"])) as ->.
  { apply (f_equal fst) in E. vm_compute in E. congruence. }
  apply (MD_export_progress env "start" (Some "?do=edit") empty_state st'
           ["start.md"] E); [discriminate | discriminate | reflexivity].
Defined.

(** ** Idempotence *)




(** ** The start of [HTML.export_all] *)

(** X13: [HTML.export_all] runs no pass unless the start page was
    materialized and [index.html] is free: when [export_path] returns
    [None] for the start page the link cannot be made ([TypeError]), and
    when [index.html] is already there, as after an earlier run,
    [symlink_to] raises [FileExistsError]. *)
Theorem HTML_export_all_start (env : Env) (self : receiver) (st st1 : state) :
  (export_path env "start" None None st = (Ok None, st1) →
   HTML_export_all env [self] st = (Raise TypeError, st1))
  ∧ (∀ target, export_path env "start" None None st = (Ok (Some target), st1) →
       is_Some (fs st1 !! ["index.html"]) →
       HTML_export_all env [self] st = (Raise FileExistsError, st1)).
Proof.
  split.
  - intros H. unfold HTML_export_all. by rewrite (bind_eq _ _ _ _ _ H).
  - intros target H [n Hn]. unfold HTML_export_all.
    rewrite (bind_eq _ _ _ _ _ H).
    unfold bind at 1, get_fs at 1. unfold bind at 1, lift at 1.
    unfold FS.symlink_to. cbn [FS.node_at Pathlib.is_root String.eqb Ascii.eqb
                               Bool.eqb orb].
    by rewrite Hn.
Qed.

Lemma HTML_export_all_start_witness :
  HTML_export_all unarchived [TheClass] empty_state
  = (Raise TypeError,
     State ∅ [Request (available_url "start" None); Log ERROR (MsgNoUrl "start")]).
Proof.
  destruct (HTML_export_all_start unarchived TheClass empty_state
              (State ∅ [Request (available_url "start" None);
                        Log ERROR (MsgNoUrl "start")])) as [H _].
  apply H. reflexivity.
Defined.

(** ** The sweep over the page tools *)

Lemma same_shape_refl (f : FS.t) : same_shape f f.
Proof. intros p. destruct (f !! p) as [[d| |t]|]; eauto. Qed.

Lemma same_shape_trans (f1 f2 f3 : FS.t) :
  same_shape f1 f2 → same_shape f2 f3 → same_shape f1 f3.
Proof.
  intros H12 H23 p. specialize (H12 p). specialize (H23 p).
  destruct (f1 !! p) as [[d| |t]|].
  - destruct H12 as [d2 H12]. by rewrite H12 in H23.
  - by rewrite H12 in H23.
  - by rewrite H12 in H23.
  - by rewrite H12 in H23.
Qed.

(** An invariant between the tree before and after a loop. *)
Lemma for_each_fs {A : Type} (R : FS.t → FS.t → Prop) (l : list A)
    (body : A → M unit) :
  (∀ f, R f f) → (∀ f1 f2 f3, R f1 f2 → R f2 f3 → R f1 f3) →
  (∀ x st, R (fs st) (fs (snd (body x st)))) →
  ∀ st, R (fs st) (fs (snd (for_each l body st))).
Proof.
  intros Hrefl Htrans Hbody. induction l as [|x l IH]; intros st; simpl.
  - apply Hrefl.
  - unfold bind. specialize (Hbody x st).
    destruct (body x st) as [[[]|e] st1]; simpl in *; [|done].
    eapply Htrans; [exact Hbody | apply IH].
Qed.

Lemma write_data_same_shape (f f' : FS.t) (p : path) (data new : string) :
  FS.read_text f p = Ok data → FS.write_data f p new = Ok f' → same_shape f f'.
Proof.
  unfold FS.read_text, FS.write_data, FS.stat.
  destruct (FS.follow FS.max_links f p) as [q|]; [|done].
  destruct (FS.node_at f q) as [[d| |t]|] eqn:Hq; try done.
  intros _ [= <-] p0.
  assert (f !! q = Some (File d)) as Hfq.
  { rewrite node_at_not_dir; [done|congruence]. }
  destruct (decide (q = p0)) as [<-|Hne].
  - rewrite Hfq, lookup_insert_eq. eauto.
  - rewrite lookup_insert_ne by done. destruct (f !! p0) as [[d0| |t0]|]; eauto.
Qed.

(** An invariant of the sweep: it holds between the tree before and
    after when it holds for every rewrite of a file that has the line
    that opens the page tools. *)
Lemma comment_out_fs (R : FS.t → FS.t → Prop) :
  (∀ f, R f f) → (∀ f1 f2 f3, R f1 f2 → R f2 f3 → R f1 f3) →
  (∀ f f' file data new,
     FS.read_text f file = Ok data →
     index_of page_tools_open (FS.readlines data) ≠ None →
     FS.write_data f file new = Ok f' → R f f') →
  ∀ st, R (fs st) (fs (snd (HTML_comment_out_menu_tools st))).
Proof.
  intros Hrefl Htrans Hwrite st.
  unfold HTML_comment_out_menu_tools.
  unfold bind at 1. cbn [emit]. unfold bind at 1, get_fs at 1. cbn [fs].
  refine (for_each_fs R _ _ Hrefl Htrans _ (State (fs st) (trace st ++ [Scan "*"]))).
  intros file s.
  unfold bind at 1, logging, emit. cbn [fs trace].
  unfold bind at 1, get_fs at 1. cbn [fs].
  unfold bind at 1, lift at 1.
  destruct (FS.read_text (fs s) file) as [data|e] eqn:Hread; [|apply Hrefl].
  destruct (index_of page_tools_open (FS.readlines data)) as [i|] eqn:Hopen;
    [|apply Hrefl].
  unfold bind at 1, emit. cbn [fs trace].
  destruct (index_of page_tools_close _) as [j|]; [|apply Hrefl].
  unfold bind at 1, lift at 1.
  destruct (FS.write_data (fs s) file _) as [f'|e] eqn:Hw; [|apply Hrefl].
  simpl. eapply (Hwrite _ _ _ _ _ Hread); [|exact Hw]. by rewrite Hopen.
Qed.

(** X14: [HTML.comment_out_menu_tools] changes nothing but the contents
    of files: whatever its result, the tree has the same entries of the
    same kinds afterwards; and when no file has the line that opens the
    page tools, the tree is exactly as it was. *)
Theorem comment_out_menu_tools_tree (st : state) :
  same_shape (fs st) (fs (snd (HTML_comment_out_menu_tools st)))
  ∧ (no_page_tools (fs st) → fs (snd (HTML_comment_out_menu_tools st)) = fs st).
Proof.
  split.
  - apply (comment_out_fs same_shape);
      [apply same_shape_refl | apply same_shape_trans|].
    intros f f' file data new Hread _ Hw.
    by apply (write_data_same_shape _ _ _ _ _ Hread Hw).
  - apply (comment_out_fs (fun f f' => no_page_tools f → f' = f)); [done | |].
    + intros f1 f2 f3 H12 H23 H1. rewrite <- (H12 H1). apply H23.
      by rewrite (H12 H1).
    + intros f f' file data new Hread Hopen _ Hnone.
      by rewrite (Hnone file data Hread) in Hopen.
Qed.

Lemma no_page_tools_files (f : FS.t) :
  (∀ q d, f !! q = Some (File d) →
          index_of page_tools_open (FS.readlines (FS.universal_newlines d)) = None) →
  no_page_tools f.
Proof.
  intros H file data Hread. unfold FS.read_text, FS.stat in Hread.
  destruct (FS.follow FS.max_links f file) as [q|]; [|done].
  destruct (FS.node_at f q) as [[d| |t]|] eqn:Hq; try done.
  injection Hread as <-. apply (H q d).
  rewrite node_at_not_dir; [done|congruence].
Qed.

Lemma comment_out_menu_tools_tree_witness :
  fs (snd (HTML_comment_out_menu_tools (State occupied []))) = occupied.
Proof.
  destruct (comment_out_menu_tools_tree (State occupied [])) as [_ H].
  apply H. apply no_page_tools_files. intros q d Hq.
  unfold fs, occupied in Hq.
  apply lookup_insert_Some in Hq as [[_ [= ]]|[_ Hq]].
  apply lookup_singleton_Some in Hq as [_ [= <-]].
  reflexivity.
Defined.

(** ** The pauses of a pass *)

Lemma emits_for_each_times {A : Type} (w : event → nat) (k : nat) (l : list A)
    (body : A → M unit) :
  (∀ x, emits w k (body x)) → emits w (List.length l * k) (for_each l body).
Proof.
  intros Hbody. induction l as [|x l IH]; simpl.
  - apply emits_ret.
  - apply (emits_bind w k (List.length l * k)); [apply Hbody | intros _; apply IH].
Qed.

Lemma unpaused_get_url (env : Env) (p : string) (sfx : option string) :
  emits pause 0 (get_url env p sfx).
Proof. unfold get_url. repeat first [ emit_step | quiet_step ]. Qed.

Lemma unpaused_get_response (env : Env) (url : string) :
  emits pause 0 (get_response env url).
Proof. unfold get_response. repeat first [ emit_step | quiet_step ]. Qed.

Lemma unpaused_write (file : path) (r : response) : emits pause 0 (write file r).
Proof.
  unfold write, rename_if_collision. repeat first [ emit_step | quiet_step ].
Qed.

Lemma unpaused_export_path (env : Env) (p : string) (us fsfx : option string) :
  emits pause 0 (export_path env p us fsfx).
Proof.
  unfold export_path.
  repeat first [ apply unpaused_get_url | apply unpaused_get_response
               | apply unpaused_write | emit_step | quiet_step ].
Qed.

(** X15: a pass pauses after every path of its frontier, also after the
    ones it skipped: when it returns, the pauses add up to two seconds
    per path for the content kind and one second per path for the
    structural kind; a pass that raises has paused less or as much. *)
Theorem pauses_per_item (env : Env) (st : state) (d : list (string * path)) :
  (MD_unexported env (fs st) = Ok d →
   ∃ evs, trace (snd (MD_export env st)) = (trace st ++ evs)%list
          ∧ (weight pause evs ≤ List.length d * 2)%nat
          ∧ (fst (MD_export env st) = Ok tt → weight pause evs = (List.length d * 2)%nat))
  ∧ (HTML_unexported env (fs st) = Ok d →
     ∃ evs, trace (snd (HTML_export env st)) = (trace st ++ evs)%list
            ∧ (weight pause evs ≤ List.length d * 1)%nat
            ∧ (fst (HTML_export env st) = Ok tt →
               weight pause evs = (List.length d * 1)%nat)).
Proof.
  split.
  - intros Hd.
    assert (MD_export env st
            = (match d with
               | [] => logging WARNING MsgNoItems
               | _ :: _ =>
                   for_each (keys d) (fun p =>
                     export_path env p (Some "?do=edit") (Some "md") ;;;
                     emit (Sleep 2))
               end) (State (fs st) (trace st ++ [Scan "*.md"]))) as ->.
    { unfold MD_export.
      unfold bind at 1. cbn [emit]. unfold bind at 1, get_fs at 1. cbn [fs].
      unfold bind at 1, lift at 1. by rewrite Hd. }
    assert (emits pause (List.length d * 2)
              (match d with
               | [] => logging WARNING MsgNoItems
               | _ :: _ =>
                   for_each (keys d) (fun p =>
                     export_path env p (Some "?do=edit") (Some "md") ;;;
                     emit (Sleep 2))
               end)) as Hloop.
    { destruct d as [|item d']; [emit_step|].
      replace (List.length (item :: d')) with (List.length (keys (item :: d')))
        by apply length_map.
      apply emits_for_each_times. intros p.
      apply (emits_bind pause 0 2); [apply unpaused_export_path|].
      intros _. emit_step. }
    destruct (Hloop (State (fs st) (trace st ++ [Scan "*.md"])))
      as (evs & Ht & Hle & Hok).
    exists (Scan "*.md" :: evs). cbn [trace] in Ht. rewrite Ht, <- app_assoc.
    split; [done|]. split; [exact Hle|]. intros Hr. by apply (Hok tt).
  - intros Hd.
    assert (HTML_export env st
            = for_each d (fun item =>
                export_path env (fst item) None None ;;; emit (Sleep 1))
                (State (fs st)
                   ((trace st ++ [Scan "*"]) ++ [Log INFO (MsgWillExport (keys d))])))
      as ->.
    { unfold HTML_export.
      unfold bind at 1. cbn [emit]. unfold bind at 1, get_fs at 1. cbn [fs].
      unfold bind at 1, lift at 1. rewrite Hd.
      unfold bind at 1. by cbn [logging emit fs trace]. }
    assert (emits pause (List.length d * 1)
              (for_each d (fun item =>
                 export_path env (fst item) None None ;;; emit (Sleep 1)))) as Hloop.
    { apply emits_for_each_times. intros item.
      apply (emits_bind pause 0 1); [apply unpaused_export_path|].
      intros _. emit_step. }
    destruct (Hloop (State (fs st)
                       ((trace st ++ [Scan "*"]) ++ [Log INFO (MsgWillExport (keys d))])))
      as (evs & Ht & Hle & Hok).
    exists (Scan "*" :: Log INFO (MsgWillExport (keys d)) :: evs).
    cbn [trace] in Ht.
    split; [by rewrite Ht, <- !app_assoc|].
    split; [exact Hle|]. intros Hr. by apply (Hok tt).
Qed.

Lemma pauses_per_item_witness :
  ∃ evs, trace (snd (MD_export unarchived (State dead_link_tree []))) = evs
         ∧ (weight pause evs ≤ 2)%nat.
Proof.
  destruct (pauses_per_item unarchived (State dead_link_tree [])
              [("commands/builtin/true", ["start.md"])]) as [H _].
  destruct (H eq_refl) as (evs & Ht & Hle & _).
  exists evs. split; [exact Ht | exact Hle].
Defined.

(** ** What a pass scans *)

Lemma elem_of_rglob (f : FS.t) (pattern : string) (p : path) :
  p ∈ FS.rglob f pattern ↔
  is_Some (f !! p) ∧ p ≠ [] ∧ Pathlib.is_absolute p = false
  ∧ FS.name_matches pattern (Pathlib.name p) = true.
Proof.
  unfold FS.rglob. rewrite elem_of_bool_filter.
  change map with (@fmap list _). rewrite list_elem_of_fmap.
  rewrite !andb_true_iff, negb_true_iff. split.
  - intros [([q x] & -> & Hq) [[Habs Hne] Hname]].
    apply elem_of_map_to_list in Hq. simpl in *.
    repeat split; [eauto | by destruct q | done | done].
  - intros ([x Hx] & Hne & Habs & Hname). split.
    + exists (p, x). split; [done|]. by apply elem_of_map_to_list.
    + repeat split; [done | by destruct p | done].
Qed.

(** X16: the files a structural pass reads are exactly the entries
    below the working directory that are regular files (links
    followed) and have no suffix; none is read twice. *)
Theorem HTML_file_paths_spec (f : FS.t) :
  (∀ file, file ∈ HTML_file_paths f ↔
           is_Some (f !! file) ∧ file ≠ [] ∧ Pathlib.is_absolute file = false
           ∧ FS.is_file f file = true ∧ Pathlib.suffix file = "")
  ∧ NoDup (HTML_file_paths f).
Proof.
  unfold HTML_file_paths, Pathlib.sorted. split.
  - intros file. rewrite merge_sort_Permutation.
    rewrite elem_of_bool_filter, elem_of_rglob, andb_true_iff, negb_true_iff.
    assert (Str.truthy (Pathlib.suffix file) = false ↔ Pathlib.suffix file = "")
      as ->.
    { by destruct (Pathlib.suffix file). }
    unfold FS.name_matches. simpl. tauto.
  - rewrite merge_sort_Permutation.
    apply NoDup_ListNoDup, List.NoDup_filter. unfold FS.rglob.
    apply List.NoDup_filter, NoDup_ListNoDup, NoDup_fst_map_to_list.
Qed.

(** ** The directory a content pass cannot read *)

Lemma MD_items_reads (env : Env) (f : FS.t) (files : list path) (items : list (string * path)) :
  MD_items env f files = Ok items →
  ∀ file, file ∈ files → ∃ data, FS.read_text f file = Ok data.
Proof.
  revert items. induction files as [|file0 files IH]; intros items H file Hin.
  - by apply elem_of_nil in Hin.
  - simpl in H. unfold MD_get_paths in H.
    destruct (FS.read_text f file0) as [data|] eqn:Hread; [|done]. simpl in H.
    destruct (MD_items env f files) as [rest|]; [|done].
    apply elem_of_cons in Hin as [->|Hin]; [eauto|]. by apply (IH rest).
Qed.

(** X17: [MD.export] reads every entry named [*.md] without asking
    whether it is a file: when one of them is a directory the pass
    raises before it requests anything, and the tree is as it was. *)
Theorem MD_export_directory_entry (env : Env) (st : state) (file : path) :
  file ∈ FS.rglob (fs st) "*.md" →
  FS.is_dir (fs st) file = true →
  ∃ e, MD_export env st = (Raise e, State (fs st) (trace st ++ [Scan "*.md"])).
Proof.
  intros Hin Hdir. unfold MD_export.
  unfold bind at 1. cbn [emit]. unfold bind at 1, get_fs at 1. cbn [fs].
  unfold bind at 1, lift at 1. unfold MD_unexported.
  destruct (MD_items env (fs st) (FS.rglob (fs st) "*.md")) as [items|e] eqn:Hitems.
  - destruct (MD_items_reads _ _ _ _ Hitems file Hin) as [data Hread].
    unfold FS.read_text in Hread. unfold FS.is_dir in Hdir.
    by destruct (FS.stat (fs st) file) as [[| |]|].
  - by exists e.
Qed.

Lemma HTML_file_paths_spec_witness :
  ["start"] ∈ HTML_file_paths dead_link_html_tree.
Proof.
  destruct (HTML_file_paths_spec dead_link_html_tree) as [H _].
  apply H. split; [eexists; reflexivity|]. repeat split; done.
Defined.

Lemma MD_export_directory_entry_witness :
  ∃ e, MD_export offline (State md_directory_tree [])
       = (Raise e, State md_directory_tree [Scan "*.md"]).
Proof.
  apply (MD_export_directory_entry offline (State md_directory_tree []) ["notes.md"]).
  - change (FS.rglob (fs (State md_directory_tree [])) "*.md") with [["notes.md"]].
    by apply list_elem_of_singleton.
  - reflexivity.
Defined.

(** ** The rename and the requests *)

(** X18: when the parent of the path is a file and the rename succeeds,
    [rename_if_collision] moves that file, as it is, to the path it
    returns and logs one warning; when the parent is not a file it
    returns the path it was given and changes nothing. *)
Theorem rename_if_collision_moves (file file' : path) (st st1 : state) :
  rename_if_collision file st = (Ok file', st1) →
  (FS.is_file (fs st) (Pathlib.parent file) = true →
   fs st1 !! file' = fs st !! Pathlib.parent file
   ∧ (file' ≠ Pathlib.parent file → fs st1 !! Pathlib.parent file = None)
   ∧ trace st1
     = (trace st ++ [Log WARNING (MsgCollision (Pathlib.parent file) file')])%list)
  ∧ (FS.is_file (fs st) (Pathlib.parent file) = false → file' = file ∧ st1 = st).
Proof.
  intros H. pose proof (rename_if_collision_inv _ _ _ _ H) as [Hpath Hren].
  unfold written_path in Hpath.
  split; intros Hfile; rewrite Hfile in Hren, Hpath.
  - destruct Hren as (f1 & Hren & Hf1).
    assert (trace st1
            = (trace st ++ [Log WARNING (MsgCollision (Pathlib.parent file) file')])%list)
      as Htrace.
    { unfold rename_if_collision in H.
      unfold bind at 1, get_fs at 1 in H. rewrite Hfile in H.
      unfold bind at 1, logging, emit in H. cbn [fs trace] in H.
      unfold bind at 1, lift at 1 in H. rewrite <- Hpath, Hren in H.
      unfold bind, put_fs, ret in H. simpl in H. by injection H as <-. }
    unfold FS.rename in Hren.
    destruct (Pathlib.parent file) as [|s src] eqn:Hparent; [done|].
    destruct (fs st !! (s :: src)) as [n|] eqn:Hsrc; [|done].
    assert (fs st1 = <[file' := n]> (delete (s :: src) (fs st))) as Hfs.
    { rewrite Hf1. destruct n as [d| |t]; [|done|];
        destruct (FS.parent_check (fs st) file') as [[]|]; try done;
        destruct (FS.node_at (fs st) file') as [[| |]|]; try done;
        by injection Hren as <-. }
    rewrite Hfs. split; [by rewrite lookup_insert_eq|]. split; [|done].
    intros Hne. rewrite lookup_insert_ne by done. by rewrite lookup_delete_eq.
  - done.
Qed.

Lemma rename_if_collision_moves_witness :
  fs (snd (rename_if_collision ["a"; "b"; "c"] (State occupied []))) !! ["a"; "_b"]
  = Some (File "old").
Proof.
  destruct (rename_if_collision_moves ["a"; "b"; "c"] ["a"; "_b"] (State occupied [])
              (snd (rename_if_collision ["a"; "b"; "c"] (State occupied []))))
    as [H _]; [reflexivity|].
  destruct H as [H _]; [reflexivity|].
  rewrite H. reflexivity.
Defined.

(** X19: resolving and fetching never change the tree, whatever the
    archive answers and also when they raise; only the trace grows. *)
Theorem resolver_and_fetch_keep_tree (env : Env) (p url : string)
    (sfx : option string) (st : state) :
  fs (snd (get_url env p sfx st)) = fs st
  ∧ fs (snd (get_response env url st)) = fs st
  ∧ (∃ evs, trace (snd (get_url env p sfx st)) = (trace st ++ evs)%list)
  ∧ (∃ evs, trace (snd (get_response env url st)) = (trace st ++ evs)%list).
Proof.
  split; [apply keeps_get_url|]. split; [apply keeps_get_response|]. split.
  - destruct (unpaused_get_url env p sfx st) as (evs & H & _). by exists evs.
  - destruct (unpaused_get_response env url st) as (evs & H & _). by exists evs.
Qed.

Example comment_out_rewrites_the_marker_lines :
  HTML_comment_out_menu_tools (State {[ ["start"] := File tools_page ]} [])
  = (Ok tt,
     State {[ ["start"] := File ("<p>" ++ newline ++ "<!-- page-tools" ++ newline
                                 ++ "<ul>" ++ newline ++ "/page-tools -->" ++ newline) ]}
           [Scan "*"; Log DEBUG (MsgFile ["start"]); Log INFO (MsgRemoving ["start"])]).
Proof. vm_compute. reflexivity. Qed.

Example comment_out_without_the_closing_line :
  HTML_comment_out_menu_tools (State {[ ["start"] := File open_tools_page ]} [])
  = (Raise ValueError,
     State {[ ["start"] := File open_tools_page ]}
           [Scan "*"; Log DEBUG (MsgFile ["start"]); Log INFO (MsgRemoving ["start"])]).
Proof. vm_compute. reflexivity. Qed.
